(** * telegram-youtube-downloader: token store, progress reporting,
      job executor and static file server.

    A shallow embedding of [bot.py], [downloader.py] and [fileserver.py],
    with the properties of the design document stated over it. *)

From Stdlib Require Import ZArith Lia Ascii String List DecimalString Sorted.
From Stdlib Require Import Floats.SpecFloat.
From Stdlib Require DecimalPos DecimalZ.
From stdpp Require Import gmap strings list sorting.

Local Open Scope string_scope.
Local Open Scope list_scope.

(** ** Python dictionaries

    A Python [dict] keeps its keys in insertion order; [d[k] = v] on a key
    that is already present replaces the value where the key stands, and
    appends the pair otherwise.  The token store depends on that order, so
    the dictionary is a list of pairs, oldest first. *)

Module PyDict.

Definition t (V : Type) : Type := list (string * V).

Definition keys {V} (d : t V) : list string := map fst d.

Fixpoint get {V} (k : string) (d : t V) : option V :=
  match d with
  | [] => None
  | (k', v) :: d' => if decide (k = k') then Some v else get k d'
  end.

Fixpoint set {V} (k : string) (v : V) (d : t V) : t V :=
  match d with
  | [] => [(k, v)]
  | (k', v') :: d' =>
      if decide (k = k') then (k, v) :: d' else (k', v') :: set k v d'
  end.

(** [del d[k]]; the callers below only delete keys read from the same
    dictionary, so the [KeyError] branch of Python never runs and a
    missing key is left as a no-op. *)
Fixpoint del {V} (k : string) (d : t V) : t V :=
  match d with
  | [] => []
  | (k', v') :: d' => if decide (k = k') then d' else (k', v') :: del k d'
  end.

(** The dictionaries a program can build have pairwise distinct keys. *)
Definition wf {V} (d : t V) : Prop := NoDup (keys d).

End PyDict.

(** ** Python numbers and exceptions

    [int] is [Z].  [float] is IEEE binary64, taken from the bit-level
    specification [SpecFloat] at precision 53 and maximal exponent 1024, so
    that [int / int], [float * int] and [int(float)] round as CPython does. *)

Module Py.

Inductive exn : Type :=
| ZeroDivisionError
| OverflowError
| ValueError
| UnicodeEncodeError
| TypeError
| OSError
| FileNotFoundError
| DownloadError
| CalledProcessError (returncode : Z).

(** [isinstance(e, ValueError)], what [except ValueError] catches:
    [UnicodeEncodeError] derives from [ValueError]. *)
Definition is_ValueError (e : exn) : bool :=
  match e with
  | ValueError | UnicodeEncodeError => true
  | _ => false
  end.

(** Computations that may raise. *)
Definition result (A : Type) : Type := exn + A.

#[global] Instance result_ret : MRet result := fun _ x => inr x.
#[global] Instance result_bind : MBind result := fun _ _ f m =>
  match m with
  | inl e => inl e
  | inr x => f x
  end.

Definition prec : Z := 53.
Definition emax : Z := 1024.

Definition float : Type := spec_float.

(** [float(n)] for an [int]: round to nearest, ties to even. *)
Definition float_of_int (n : Z) : float := binary_normalize prec emax n 0 false.

(** [a / b] on two [int]s: the correctly rounded quotient. *)
Definition truediv (a b : Z) : result float :=
  if (b =? 0)%Z then inl ZeroDivisionError
  else if (a =? 0)%Z then inr (S754_zero (b <? 0)%Z)
  else
    let '(q, e, l) := SFdiv_core_binary prec emax (Z.abs a) 0 (Z.abs b) 0 in
    match binary_round_aux prec emax (xorb (a <? 0)%Z (b <? 0)%Z) q e l with
    | S754_infinity _ => inl OverflowError
    | f => inr f
    end.

(** [x * n] for a [float] and an [int]: [n] is converted first. *)
Definition mul_int (x : float) (n : Z) : float :=
  SFmul prec emax x (float_of_int n).

(** [int(x)]: truncation towards zero. *)
Definition int_of_float (x : float) : result Z :=
  match x with
  | S754_zero _ => inr 0%Z
  | S754_infinity _ => inl OverflowError
  | S754_nan => inl ValueError
  | S754_finite s m e => inr (cond_Zopp s (Z.shiftl (Zpos m) e))
  end.

(** [str(n)] for an [int]. *)
Definition str_of_int (n : Z) : string := NilZero.string_of_int (Z.to_int n).

(** *** Rounding invariants

    A shift record is inexact when bits were cut off. *)
Definition inexact (mrs : shr_record) : bool := shr_r mrs || shr_s mrs.

(** The mantissa lies between [lo] and [hi], strictly below [hi] when
    bits were lost. *)
Definition between (lo hi : Z) (mrs : shr_record) : Prop :=
  (lo <= shr_m mrs <= hi)%Z ∧ (inexact mrs = true → shr_m mrs < hi)%Z.

(** The same for the bounds [lo * 2 ^ c] and [hi * 2 ^ c] and a
    mantissa at exponent [e]. *)
Definition scaled (lo hi c e : Z) (mrs : shr_record) : Prop :=
  between (lo * 2 ^ (c - e)) (hi * 2 ^ (c - e)) mrs.

(** A float that is zero (only when [lo] is), or positive with
    [lo * 2 ^ c <= x <= hi * 2 ^ c]; [x] is then the mantissa times two
    to the exponent. *)
Definition float_between (lo hi c : Z) (x : float) : Prop :=
  match x with
  | S754_zero _ => lo = 0%Z
  | S754_finite s m e =>
      s = false
      ∧ (e <= c)%Z ∧ (lo * 2 ^ (c - e) <= Zpos m <= hi * 2 ^ (c - e))%Z
  | _ => False
  end.

End Py.

(** ** [hashlib.md5]

    RFC 1321, on 32-bit words kept as [N] with the wrap-around written
    out. *)

Module Hashlib.

Local Open Scope N_scope.

Definition add32 (a b : N) : N := (a + b) mod 2 ^ 32.

Definition not32 (a : N) : N := N.lxor a (2 ^ 32 - 1).

(** Rotation to the left by [c] bits, [0 < c < 32]. *)
Definition rotl32 (a c : N) : N :=
  N.lor (N.shiftl a c mod 2 ^ 32) (N.shiftr a (32 - c)).

(** The shift of each of the 64 steps. *)
Definition shifts : list N := [
    7; 12; 17; 22; 7; 12; 17; 22; 7; 12; 17; 22; 7; 12; 17; 22;
    5; 9; 14; 20; 5; 9; 14; 20; 5; 9; 14; 20; 5; 9; 14; 20;
    4; 11; 16; 23; 4; 11; 16; 23; 4; 11; 16; 23; 4; 11; 16; 23;
    6; 10; 15; 21; 6; 10; 15; 21; 6; 10; 15; 21; 6; 10; 15; 21 ].

(** [floor(2 ^ 32 * abs(sin(i + 1)))] for [i] from 0 to 63. *)
Definition sines : list N := [
    3614090360; 3905402710; 606105819; 3250441966;
    4118548399; 1200080426; 2821735955; 4249261313;
    1770035416; 2336552879; 4294925233; 2304563134;
    1804603682; 4254626195; 2792965006; 1236535329;
    4129170786; 3225465664; 643717713; 3921069994;
    3593408605; 38016083; 3634488961; 3889429448;
    568446438; 3275163606; 4107603335; 1163531501;
    2850285829; 4243563512; 1735328473; 2368359562;
    4294588738; 2272392833; 1839030562; 4259657740;
    2763975236; 1272893353; 4139469664; 3200236656;
    681279174; 3936430074; 3572445317; 76029189;
    3654602809; 3873151461; 530742520; 3299628645;
    4096336452; 1126891415; 2878612391; 4237533241;
    1700485571; 2399980690; 4293915773; 2240044497;
    1873313359; 4264355552; 2734768916; 1309151649;
    4149444226; 3174756917; 718787259; 3951481745 ].

Definition initial_state : N * N * N * N :=
  (1732584193, 4023233417, 2562383102, 271733878).

(** Step [i] on the state, for the sixteen words [M] of a block. *)
Definition step (M : list N) (state : N * N * N * N) (i : nat)
  : N * N * N * N :=
  let '(a, b, c, d) := state in
  let '(f, g) :=
    if (i <? 16)%nat then
      (N.lor (N.land b c) (N.land (not32 b) d), i)
    else if (i <? 32)%nat then
      (N.lor (N.land d b) (N.land (not32 d) c), ((5 * i + 1) mod 16)%nat)
    else if (i <? 48)%nat then
      (N.lxor (N.lxor b c) d, ((3 * i + 5) mod 16)%nat)
    else
      (N.lxor c (N.lor b (not32 d)), ((7 * i) mod 16)%nat) in
  let f := add32 (add32 (add32 f a) (nth i sines 0)) (nth g M 0) in
  (d, add32 b (rotl32 f (nth i shifts 0)), b, c).

(** The words of a block: four bytes each, lowest first. *)
Fixpoint words (bytes : list N) : list N :=
  match bytes with
  | b0 :: b1 :: b2 :: b3 :: rest =>
      (b0 + 256 * b1 + 65536 * b2 + 16777216 * b3) :: words rest
  | _ => []
  end.

Definition compress (state : N * N * N * N) (block : list N)
  : N * N * N * N :=
  let '(a0, b0, c0, d0) := state in
  let '(a, b, c, d) := foldl (step (words block)) state (seq 0 64) in
  (add32 a0 a, add32 b0 b, add32 c0 c, add32 d0 d).

(** The low [n] bytes of [x], lowest first. *)
Fixpoint le_bytes (n : nat) (x : N) : list N :=
  match n with
  | O => []
  | S n' => x mod 256 :: le_bytes n' (x / 256)
  end.

(** The message, one [80] byte, zeros up to 56 modulo 64, and the
    length in bits on eight bytes. *)
Definition pad (message : list N) : list N :=
  let len := length message in
  let zeros := ((55 + 64 - len mod 64) mod 64)%nat in
  message ++ [128] ++ repeat 0 zeros ++ le_bytes 8 (8 * N.of_nat len).

Fixpoint blocks (n : nat) (bytes : list N) : list (list N) :=
  match n with
  | O => []
  | S n' => take 64 bytes :: blocks n' (drop 64 bytes)
  end.

Definition digest (message : list N) : list N :=
  let padded := pad message in
  let '(a, b, c, d) :=
    foldl compress initial_state (blocks (length padded / 64) padded) in
  le_bytes 4 a ++ le_bytes 4 b ++ le_bytes 4 c ++ le_bytes 4 d.

Definition hex_lower (n : N) : ascii :=
  if n <? 10 then ascii_of_N (48 + n) else ascii_of_N (87 + n).

(** [hashlib.md5(s.encode()).hexdigest()] *)
Definition md5_hexdigest (s : string) : string :=
  string_of_list_ascii
    (flat_map (fun byte => [hex_lower (byte / 16); hex_lower (byte mod 16)])
       (digest (map N_of_ascii (list_ascii_of_string s)))).

End Hashlib.

(** ** bot.py: the token store *)

Module Bot.

Section TokenStore.

(** [hashlib.md5(url.encode()).hexdigest()], a function of the standard
    library. *)
Variable md5_hexdigest : string -> string.

Definition _URL_STORE_MAX : nat := 100.

(** [for k in keys[:len(keys) // 2]: del _url_store[k]] *)
Definition evict_oldest_half (store : PyDict.t string) : PyDict.t string :=
  let keys := PyDict.keys store in
  foldl (fun s k => PyDict.del k s) store (take (length keys / 2) keys).

(** [_store_url]: the module-level dictionary is threaded through. *)
Definition _store_url (store : PyDict.t string) (url : string)
  : PyDict.t string * string :=
  let store1 :=
    if decide (_URL_STORE_MAX <= length store)
    then evict_oldest_half store
    else store in
  let key := substring 0 10 (md5_hexdigest url) in
  (PyDict.set key url store1, key).

Definition _get_url (store : PyDict.t string) (key : string) : option string :=
  PyDict.get key store.

(** The store after a sequence of [_store_url] calls on the empty
    dictionary the module starts with. *)
Definition stores_after (urls : list string) : PyDict.t string :=
  foldl (fun s u => fst (_store_url s u)) [] urls.

(** The same from any store, and whether one of the calls finds the
    store full and evicts. *)
Definition stores_from (store : PyDict.t string) (urls : list string)
  : PyDict.t string :=
  foldl (fun s u => fst (_store_url s u)) store urls.

Fixpoint evicts (store : PyDict.t string) (urls : list string) : bool :=
  match urls with
  | [] => false
  | url :: urls' =>
      bool_decide (_URL_STORE_MAX <= length store)
      || evicts (fst (_store_url store url)) urls'
  end.

End TokenStore.

(** *** The progress throttler of [handle_callback]

    [update_progress] wakes every two seconds, reads the shared value under
    the lock and edits the progress message when the value changed.  One
    element of [samples] is the value read at one wake-up; the list ends
    where the task is cancelled.  A failing [edit_text] is swallowed by the
    [try], so a call is recorded whether it succeeds or not. *)

Record notification : Type := Notify {
  shown_percent : Z;
  shown_text : string
}.

Definition progress_text (percent : Z) : string :=
  if decide (percent < 100)%Z
  then "Downloading... " +:+ Py.str_of_int percent +:+ "%"
  else "Processing...".

(** The body of [while True], started with [last_shown]. *)
Fixpoint update_progress_from (last_shown : Z) (samples : list Z)
  : list notification :=
  match samples with
  | [] => []
  | percent :: samples' =>
      let shows := bool_decide (percent ≠ last_shown) in
      let last_shown' := if shows then percent else last_shown in
      (if shows then [Notify percent (progress_text percent)] else [])
      ++ (if decide (100 <= percent)%Z then []
          else update_progress_from last_shown' samples')
  end.

Definition update_progress (samples : list Z) : list notification :=
  update_progress_from (-1) samples.

(** *** The buttons of [handle_message] and the front of
    [handle_callback] *)

(** [if not url.startswith("http"): url = "https://" + url] *)
Definition with_scheme (url : string) : string :=
  if String.prefix "http" url then url else "https://" +:+ url.

(** [f"{quality}|{url_key}"] *)
Definition callback_data (quality url_key : string) : string :=
  quality +:+ "|" +:+ url_key.

(** The [callback_data] of the four buttons, row by row. *)
Definition keyboard (url_key : string) : list (list string) :=
  [ [callback_data "best" url_key; callback_data "720p" url_key];
    [callback_data "480p" url_key; callback_data "audio" url_key] ].

(** [s.split(sep, 1)]: at most one cut, at the first [sep]. *)
Fixpoint split_once (sep : ascii) (s : string) : list string :=
  match s with
  | EmptyString => [EmptyString]
  | String c t =>
      if Ascii.eqb c sep then [EmptyString; t]
      else
        match split_once sep t with
        | w :: ws => String c w :: ws
        | [] => [String c EmptyString]
        end
  end.

(** What [handle_callback] goes on to do once it has read the button. *)
Inductive callback_action : Type :=
| LinkExpired                                   (* "Link expired. ..." *)
| DownloadAudio (url : string)
| DownloadVideo (url quality : string).

(** [quality, url_key = data.split("|", 1)], the lookup, [if not url] and
    the choice between [download_audio] and [download_video]. *)
Definition handle_callback (store : PyDict.t string) (data : string)
  : Py.result callback_action :=
  match split_once "|" data with
  | [quality; url_key] =>
      match PyDict.get url_key store with
      | None => inr LinkExpired
      | Some url =>
          if decide (url = EmptyString) then inr LinkExpired
          else if decide (quality = "audio") then inr (DownloadAudio url)
          else inr (DownloadVideo url quality)
      end
  | _ => inl Py.ValueError
  end.

End Bot.

(** ** downloader.py *)

Module Downloader.

(** *** [DownloadProgress] *)

(** The object's fields; [has_callback] is [self.callback is not None]. *)
Record DownloadProgress : Type := {
  has_callback : bool;
  last_percent : Z
}.

Definition DownloadProgress_init (has_callback : bool) : DownloadProgress :=
  {| has_callback := has_callback; last_percent := -1 |}.

(** The dictionary the engine passes to a progress hook when every byte
    count it carries is an [int].  A field that is [None] here is a key
    the dictionary lacks.  Dictionaries in which a key holds Python's
    [None] are those of [progress_dict] below, and [hook_dict] is the
    hook on them; on the dictionary of a [progress_event] it does what
    [hook] does. *)
Record progress_event : Type := {
  status : string;
  total_bytes : option Z;
  total_bytes_estimate : option Z;
  downloaded_bytes : option Z
}.

(** What a run of the hook does that is visible outside: calls of
    [self.callback] and true divisions. *)
Inductive effect : Type :=
| Callback (percent : Z) (phase : string)
| TrueDiv (a b : Z).

(** [d.get("total_bytes") or d.get("total_bytes_estimate", 0)] *)
Definition event_total (d : progress_event) : Z :=
  match total_bytes d with
  | Some n => if decide (n = 0)%Z then default 0%Z (total_bytes_estimate d) else n
  | None => default 0%Z (total_bytes_estimate d)
  end.

(** [int(downloaded / total * 100)] *)
Definition percent_of (downloaded total : Z) : Py.result Z :=
  x ← Py.truediv downloaded total;
  Py.int_of_float (Py.mul_int x 100).

Definition hook (self : DownloadProgress) (d : progress_event)
  : Py.result (DownloadProgress * list effect) :=
  if decide (status d = "downloading") then
    let total := event_total d in
    let downloaded := default 0%Z (downloaded_bytes d) in
    if decide (0 < total)%Z then
      percent ← percent_of downloaded total;
      if bool_decide (percent ≠ last_percent self) && has_callback self then
        mret ({| has_callback := has_callback self; last_percent := percent |},
              [TrueDiv downloaded total; Callback percent "downloading"])
      else mret (self, [TrueDiv downloaded total])
    else mret (self, [])
  else if decide (status d = "finished") then
    if has_callback self
    then mret (self, [Callback 100 "processing"])
    else mret (self, [])
  else mret (self, []).

(** The hook driven over the events of one job, as the engine does. *)
Fixpoint run_hook (self : DownloadProgress) (ds : list progress_event)
  : Py.result (DownloadProgress * list effect) :=
  match ds with
  | [] => mret (self, [])
  | d :: ds' =>
      '(self1, out1) ← hook self d;
      '(self2, out2) ← run_hook self1 ds';
      mret (self2, out1 ++ out2)
  end.

(** An event whose byte counts are consistent: when a positive total is
    in use, the bytes fetched lie between zero and that total. *)
Definition consistent (d : progress_event) : Prop :=
  status d = "downloading" → (0 < event_total d)%Z →
  (0 <= default 0 (downloaded_bytes d) <= event_total d)%Z.

(** The percent values handed to [self.callback]. *)
Definition delivered (out : list effect) : list Z :=
  omap (fun e => match e with Callback p _ => Some p | TrueDiv _ _ => None end) out.

(** The percents of the callbacks made in the "downloading" phase. *)
Definition downloading_percents (out : list effect) : list Z :=
  omap (fun e => match e with
                 | Callback p phase =>
                     if decide (phase = "downloading") then Some p else None
                 | TrueDiv _ _ => None
                 end) out.

(** *** The hook on the dictionary of the engine

    The engine documents [total_bytes] as [None] when the size is not
    known and [total_bytes_estimate] as [None] when there is no guess: a
    key of the dictionary is missing, or holds [None], or holds an
    [int]. *)
Inductive value : Type :=
| PyNone
| PyInt (n : Z).

Record progress_dict : Type := {
  dict_status : string;
  dict_total_bytes : option value;
  dict_total_bytes_estimate : option value;
  dict_downloaded_bytes : option value
}.

(** The truth value of [None] and of an [int]. *)
Definition truthy (v : value) : bool :=
  match v with
  | PyNone => false
  | PyInt n => bool_decide (n ≠ 0%Z)
  end.

(** [d.get("total_bytes") or d.get("total_bytes_estimate", 0)]: the
    default only stands in for a missing key. *)
Definition dict_total (d : progress_dict) : value :=
  let total_bytes := default PyNone (dict_total_bytes d) in
  if truthy total_bytes then total_bytes
  else default (PyInt 0) (dict_total_bytes_estimate d).

(** [hook] on any dictionary: [None > 0] and [None / total] raise
    [TypeError]. *)
Definition hook_dict (self : DownloadProgress) (d : progress_dict)
  : Py.result (DownloadProgress * list effect) :=
  if decide (dict_status d = "downloading") then
    let total := dict_total d in
    let downloaded := default (PyInt 0) (dict_downloaded_bytes d) in
    match total with
    | PyNone => inl Py.TypeError
    | PyInt total =>
        if decide (0 < total)%Z then
          match downloaded with
          | PyNone => inl Py.TypeError
          | PyInt downloaded =>
              percent ← percent_of downloaded total;
              if bool_decide (percent ≠ last_percent self) && has_callback self
              then
                mret ({| has_callback := has_callback self;
                         last_percent := percent |},
                      [TrueDiv downloaded total; Callback percent "downloading"])
              else mret (self, [TrueDiv downloaded total])
          end
        else mret (self, [])
    end
  else if decide (dict_status d = "finished") then
    if has_callback self
    then mret (self, [Callback 100 "processing"])
    else mret (self, [])
  else mret (self, []).

(** The dictionary of an event whose byte counts are [int]s. *)
Definition dict_of (d : progress_event) : progress_dict := {|
  dict_status := status d;
  dict_total_bytes := PyInt <$> total_bytes d;
  dict_total_bytes_estimate := PyInt <$> total_bytes_estimate d;
  dict_downloaded_bytes := PyInt <$> downloaded_bytes d
|}.

(** *** Format selectors

    [format_map] holds selector expressions of the extraction engine:
    alternatives separated by [/], tried left to right; [v+a] merges a
    video-only and an audio-only stream; [[...]] filters the candidates. *)

Inductive filter : Type :=
| VcodecPrefix (p : string)      (* [vcodec^=p] *)
| AcodecPrefix (p : string)      (* [acodec^=p] *)
| HeightLe (h : Z).              (* [height<=h] *)

Inductive stream_kind : Type :=
| BestVideo                      (* bestvideo: best video-only format *)
| BestAudio                      (* bestaudio: best audio-only format *)
| Best.                          (* best: best format with video and audio *)

Record atom : Type := Atom { kind : stream_kind; filters : list filter }.

Inductive selector : Type :=
| Single (a : atom)
| Merge (v a : atom).

Definition render_filter (f : filter) : string :=
  match f with
  | VcodecPrefix p => "[vcodec^=" +:+ p +:+ "]"
  | AcodecPrefix p => "[acodec^=" +:+ p +:+ "]"
  | HeightLe h => "[height<=" +:+ Py.str_of_int h +:+ "]"
  end.

Definition render_kind (k : stream_kind) : string :=
  match k with
  | BestVideo => "bestvideo"
  | BestAudio => "bestaudio"
  | Best => "best"
  end.

Definition render_atom (a : atom) : string :=
  render_kind (kind a) +:+ String.concat EmptyString (map render_filter (filters a)).

Definition render_selector (s : selector) : string :=
  match s with
  | Single a => render_atom a
  | Merge v a => render_atom v +:+ "+" +:+ render_atom a
  end.

Definition render_chain (c : list selector) : string :=
  String.concat "/" (map render_selector c).

(** The dictionary literal of [download_video]. *)
Definition format_map : gmap string string :=
  {[ "best" := "bestvideo[vcodec^=avc1]+bestaudio[acodec^=mp4a]/bestvideo[vcodec^=avc1]+bestaudio/best[vcodec^=avc1]/best";
     "720p" := "bestvideo[height<=720][vcodec^=avc1]+bestaudio[acodec^=mp4a]/bestvideo[height<=720][vcodec^=avc1]+bestaudio/best[height<=720][vcodec^=avc1]/best[height<=720]";
     "480p" := "bestvideo[height<=480][vcodec^=avc1]+bestaudio[acodec^=mp4a]/bestvideo[height<=480][vcodec^=avc1]+bestaudio/best[height<=480][vcodec^=avc1]/best[height<=480]" ]}.

(** [format_map.get(quality, format_map["best"])]; the key ["best"] is in
    the literal, so the default never raises. *)
Definition format_for (quality : string) : string :=
  default (default EmptyString (format_map !! "best")) (format_map !! quality).

(** The height bound a tier puts on the streams, if any. *)
Definition tier_height (quality : string) : option Z :=
  if decide (quality = "720p") then Some 720%Z
  else if decide (quality = "480p") then Some 480%Z
  else None.

(** The selectors of [format_for quality], parsed ([format_chain_renders]
    below ties them to the strings of [format_map]). *)
Definition format_chain (quality : string) : list selector :=
  let h := match tier_height quality with Some h => [HeightLe h] | None => [] end in
  [ Merge (Atom BestVideo (h ++ [VcodecPrefix "avc1"])) (Atom BestAudio [AcodecPrefix "mp4a"]);
    Merge (Atom BestVideo (h ++ [VcodecPrefix "avc1"])) (Atom BestAudio []);
    Single (Atom Best (h ++ [VcodecPrefix "avc1"]));
    Single (Atom Best h) ].

(** *** The engine's side of format selection

    A format offered by a source, with the fields the selectors read.  The
    engine writes ["none"] for the codec of a track that a format lacks;
    [height] is absent on audio-only formats. *)
Record format : Type := {
  vcodec : string;
  acodec : string;
  height : option Z
}.

Definition has_video (f : format) : bool := bool_decide (vcodec f ≠ "none").
Definition has_audio (f : format) : bool := bool_decide (acodec f ≠ "none").

(** What [bestvideo], [bestaudio] and [best] look for: a format with
    video only, with audio only, with both.  (When every format of a
    source is video-only, or every one audio-only, the engine lets [best]
    fall back on those; the model leaves that out, so the engine selects
    wherever the model does.) *)
Definition kind_admits (k : stream_kind) (f : format) : bool :=
  match k with
  | BestVideo => has_video f && negb (has_audio f)
  | BestAudio => has_audio f && negb (has_video f)
  | Best => has_video f && has_audio f
  end.

(** A comparison on a field the format lacks excludes the format. *)
Definition filter_admits (x : filter) (f : format) : bool :=
  match x with
  | VcodecPrefix p => String.prefix p (vcodec f)
  | AcodecPrefix p => String.prefix p (acodec f)
  | HeightLe h => match height f with Some k => bool_decide (k <= h)%Z | None => false end
  end.

(** The format is within the height bound of the tier. *)
Definition within_tier (quality : string) (f : format) : bool :=
  match tier_height quality with
  | Some h => filter_admits (HeightLe h) f
  | None => true
  end.

Definition atom_admits (a : atom) (f : format) : bool :=
  kind_admits (kind a) f && forallb (fun x => filter_admits x f) (filters a).

(** The engine lists formats from worst to best and takes the last one an
    atom admits. *)
Definition select_atom (a : atom) (formats : list format) : option format :=
  last (List.filter (atom_admits a) formats).

Definition select_selector (s : selector) (formats : list format)
  : option (list format) :=
  match s with
  | Single a => f ← select_atom a formats; Some [f]
  | Merge v a => fv ← select_atom v formats; fa ← select_atom a formats; Some [fv; fa]
  end.

(** Alternatives are tried in order; the engine raises "requested format
    is not available" when none selects anything. *)
Fixpoint select_chain (c : list selector) (formats : list format)
  : option (list format) :=
  match c with
  | [] => None
  | s :: c' =>
      match select_selector s formats with
      | Some fs => Some fs
      | None => select_chain c' formats
      end
  end.

(** *** Paths and files *)

(** A path as [pathlib] splits it: directory, stem and last suffix (empty,
    or a dot and an extension). *)
Record Path : Type := {
  parent : string;
  stem : string;
  suffix : string
}.

Definition path_str (p : Path) : string :=
  parent p +:+ "/" +:+ stem p +:+ suffix p.

Definition with_suffix (s : string) (p : Path) : Path :=
  {| parent := parent p; stem := stem p; suffix := s |}.

Definition with_stem (s : string) (p : Path) : Path :=
  {| parent := parent p; stem := s; suffix := suffix p |}.

(** The regular files of the artifact directory, by path, with their
    bytes. *)
Abbreviation files := (gmap string string).

(** A job runs on the file system and may raise; [seen] keeps every state
    the file system went through, newest first, and [requests] the URL
    and the [format] option of every run of the engine, newest first. *)
Record world : Type := {
  fs : files;
  seen : list files;
  requests : list (string * string)
}.

Definition Job (A : Type) : Type := world -> Py.result A * world.

#[global] Instance Job_ret : MRet Job := fun _ x w => (inr x, w).
#[global] Instance Job_bind : MBind Job := fun _ _ f m w =>
  match m w with
  | (inl e, w') => (inl e, w')
  | (inr x, w') => f x w'
  end.

Definition raise {A} (e : Py.exn) : Job A := fun w => (inl e, w).

Definition update_fs (f : files -> files) : Job unit := fun w =>
  (inr (), {| fs := f (fs w); seen := fs w :: seen w;
              requests := requests w |}).

Definition path_exists (p : Path) : Job bool := fun w =>
  (inr (bool_decide (is_Some (fs w !! path_str p))), w).

(** [p.unlink()] *)
Definition unlink (p : Path) : Job unit := fun w =>
  match fs w !! path_str p with
  | Some _ => update_fs (delete (path_str p)) w
  | None => raise Py.FileNotFoundError w
  end.

(** [src.rename(dst)]: the destination is replaced in one step. *)
Definition rename (src dst : Path) : Job unit := fun w =>
  match fs w !! path_str src with
  | Some c => update_fs (fun m => <[path_str dst := c]> (delete (path_str src) m)) w
  | None => raise Py.FileNotFoundError w
  end.

Section Video.

(** [extract_info(url, download=True)] followed by [prepare_filename]:
    the engine fetches with the given selector expression, writes under
    the artifact directory, and reports the video codec tag and the
    output name, or raises. *)
Variable engine_download :
  string -> string -> files -> Py.result (string * Path) * files.

(** The [ffmpeg] process of the re-encode step, as a function of the
    input file (absent when the path does not exist): its exit status and
    what it leaves at its output path ([None]: the path is not written;
    [Some c]: the path now holds [c], complete or not).  It writes
    nowhere else. *)
Variable ffmpeg : option string -> Z * option string.

Definition extract_info (url fmt : string) : Job (string * Path) := fun w =>
  let '(r, fs') := engine_download url fmt (fs w) in
  (r, {| fs := fs'; seen := fs w :: seen w;
         requests := (url, fmt) :: requests w |}).

(** [subprocess.run(["ffmpeg", "-i", input, ..., "-y", output],
    check=True, capture_output=True)] *)
Definition run_ffmpeg (input output : Path) : Job unit := fun w =>
  let '(returncode, out) := ffmpeg (fs w !! path_str input) in
  let w' :=
    match out with
    | Some c => snd (update_fs (<[path_str output := c]>) w)
    | None => w
    end in
  if decide (returncode = 0)%Z then (inr (), w')
  else raise (Py.CalledProcessError returncode) w'.

(** The body of [download_video] from the re-encode check on. *)
Definition normalize_codec (vcodec : string) (final_path : Path) : Job Path :=
  if bool_decide (vcodec ≠ EmptyString) && negb (String.prefix "avc" vcodec) then
    let h264_path := with_stem (stem final_path +:+ "_h264") final_path in
    _ ← run_ffmpeg final_path h264_path;
    _ ← unlink final_path;
    _ ← rename h264_path final_path;
    mret final_path
  else mret final_path.

(** The canonical output path: the prepared name, or the same with the
    merge container's suffix when the prepared name does not exist. *)
Definition canonical_path (filename : Path) : Job Path :=
  present ← path_exists filename;
  mret (if present : bool then filename else with_suffix ".mp4" filename).

Definition download_video (url quality : string) : Job Path :=
  '(vcodec, filename) ← extract_info url (format_for quality);
  final_path ← canonical_path filename;
  normalize_codec vcodec final_path.

End Video.

(** *** [format_duration] *)

(** [f"{n:02d}"] *)
Definition fmt_02d (n : Z) : string :=
  if decide (0 <= n < 10)%Z then "0" +:+ Py.str_of_int n else Py.str_of_int n.

(** [//] and [%] of Python round towards minus infinity, as [Z.div] and
    [Z.modulo] do for a positive divisor. *)
Definition format_duration (seconds : Z) : string :=
  if decide (seconds < 3600)%Z then
    Py.str_of_int (seconds / 60) +:+ ":" +:+ fmt_02d (seconds mod 60)
  else
    Py.str_of_int (seconds / 3600) +:+ ":"
    +:+ fmt_02d ((seconds mod 3600) / 60) +:+ ":" +:+ fmt_02d (seconds mod 60).

End Downloader.

(** ** fileserver.py *)

Module Fileserver.

(** *** [urllib.parse] and [xml.sax.saxutils]

    A Python [str] is the byte string the file system holds for it:
    its UTF-8 encoding, which is what [quote] works on and what [unquote]
    decodes to, with the byte itself where the [str] has one of the lone
    surrogates by which Python carries a byte that is not UTF-8. *)

Definition hex_value (c : ascii) : option N :=
  let n := N_of_ascii c in
  if (48 <=? n)%N && (n <=? 57)%N then Some (n - 48)%N
  else if (65 <=? n)%N && (n <=? 70)%N then Some (n - 55)%N
  else if (97 <=? n)%N && (n <=? 102)%N then Some (n - 87)%N
  else None.

(** [unquote_to_bytes]: every [%XX] with two hexadecimal digits becomes
    the byte; any other [%] stays. *)
Fixpoint unquote_to_bytes (s : string) : string :=
  match s with
  | EmptyString => EmptyString
  | String c t =>
      if Ascii.eqb c "%" then
        match t with
        | String h (String l rest) =>
            match hex_value h, hex_value l with
            | Some a, Some b =>
                String (ascii_of_N (16 * a + b)) (unquote_to_bytes rest)
            | _, _ => String c (unquote_to_bytes t)
            end
        | _ => String c (unquote_to_bytes t)
        end
      else String c (unquote_to_bytes t)
  end.

(** **** UTF-8

    How many continuation bytes a first byte asks for; [None] for a byte
    that cannot start a character ([80]-[C1] and [F5]-[FF]). *)
Definition utf8_tail_length (lead : N) : option nat :=
  if (lead <? 128)%N then Some 0
  else if (lead <? 194)%N then None
  else if (lead <? 224)%N then Some 1
  else if (lead <? 240)%N then Some 2
  else if (lead <? 245)%N then Some 3
  else None.

Definition is_continuation (c : ascii) : bool :=
  let n := N_of_ascii c in (128 <=? n)%N && (n <=? 191)%N.

(** The second byte is tighter after [E0], [ED], [F0] and [F4]: no
    character is encoded longer than needed, none is a surrogate, none
    lies above [U+10FFFF]. *)
Definition second_byte_ok (lead : N) (c : ascii) : bool :=
  let n := N_of_ascii c in
  if (lead =? 224)%N then (160 <=? n)%N && (n <=? 191)%N
  else if (lead =? 237)%N then (128 <=? n)%N && (n <=? 159)%N
  else if (lead =? 240)%N then (144 <=? n)%N && (n <=? 191)%N
  else if (lead =? 244)%N then (128 <=? n)%N && (n <=? 143)%N
  else is_continuation c.

(** The decoder's reading of a byte string: [Some] of the bytes of one
    well-formed character, or [None] where bytes failed to decode, once
    per maximal run that starts a character and does not complete it (one
    to three bytes), as CPython's decoder reports its errors. *)
Fixpoint utf8_chunks (s : string) : list (option string) :=
  match s with
  | EmptyString => []
  | String b0 t =>
      let lead := N_of_ascii b0 in
      match utf8_tail_length lead with
      | None => None :: utf8_chunks t
      | Some 0 => Some (String b0 EmptyString) :: utf8_chunks t
      | Some 1 =>
          match t with
          | String b1 t1 =>
              if second_byte_ok lead b1
              then Some (String b0 (String b1 EmptyString)) :: utf8_chunks t1
              else None :: utf8_chunks t
          | EmptyString => [None]
          end
      | Some 2 =>
          match t with
          | String b1 t1 =>
              if second_byte_ok lead b1 then
                match t1 with
                | String b2 t2 =>
                    if is_continuation b2
                    then Some (String b0 (String b1 (String b2 EmptyString)))
                         :: utf8_chunks t2
                    else None :: utf8_chunks t1
                | EmptyString => [None]
                end
              else None :: utf8_chunks t
          | EmptyString => [None]
          end
      | Some _ =>
          match t with
          | String b1 t1 =>
              if second_byte_ok lead b1 then
                match t1 with
                | String b2 t2 =>
                    if is_continuation b2 then
                      match t2 with
                      | String b3 t3 =>
                          if is_continuation b3
                          then Some (String b0 (String b1 (String b2
                                       (String b3 EmptyString))))
                               :: utf8_chunks t3
                          else None :: utf8_chunks t2
                      | EmptyString => [None]
                      end
                    else None :: utf8_chunks t1
                | EmptyString => [None]
                end
              else None :: utf8_chunks t
          | EmptyString => [None]
          end
      end
  end.

(** The bytes of [U+FFFD], the replacement character. *)
Definition replacement_character : string :=
  String (ascii_of_N 239) (String (ascii_of_N 191)
    (String (ascii_of_N 189) EmptyString)).

(** [bs.decode("utf-8", "replace")], as UTF-8 again. *)
Definition decode_replace (bs : string) : string :=
  String.concat EmptyString
    (map (default replacement_character) (utf8_chunks bs)).

(** The byte strings that are the UTF-8 of a [str] without lone
    surrogates: the ones [encode("utf-8")] can produce. *)
Definition utf8_valid (bs : string) : bool :=
  forallb (fun chunk => bool_decide (is_Some chunk)) (utf8_chunks bs).

Definition is_ascii (c : ascii) : bool := (N_of_ascii c <? 128)%N.

(** [re.compile('([\x00-\x7f]+)').split]: the maximal runs of ASCII and
    of other characters, each with whether it is ASCII. *)
Fixpoint ascii_runs (s : string) : list (bool * string) :=
  match s with
  | EmptyString => []
  | String c t =>
      match ascii_runs t with
      | (a, run) :: runs =>
          if Bool.eqb a (is_ascii c) then (a, String c run) :: runs
          else (is_ascii c, String c EmptyString) :: (a, run) :: runs
      | [] => [(is_ascii c, String c EmptyString)]
      end
  end.

Fixpoint contains (c : ascii) (s : string) : bool :=
  match s with
  | EmptyString => false
  | String c' t => Ascii.eqb c' c || contains c t
  end.

(** [unquote(string)] with its defaults [encoding="utf-8"] and
    [errors="replace"]: a string without [%] comes back as it is;
    otherwise each ASCII run is unquoted to bytes and decoded, and the
    other characters stay. *)
Definition unquote (s : string) : string :=
  if negb (contains "%" s) then s
  else
    String.concat EmptyString
      (map (fun '(ascii, run) =>
              if ascii : bool then decode_replace (unquote_to_bytes run)
              else run)
         (ascii_runs s)).

Definition hex_digit (n : N) : ascii :=
  if (n <? 10)%N then ascii_of_N (48 + n) else ascii_of_N (55 + n).

(** The bytes [quote] leaves alone: letters, digits, [_.-~] and the
    default [safe="/"]. *)
Definition always_safe (c : ascii) : bool :=
  let n := N_of_ascii c in
  ((48 <=? n)%N && (n <=? 57)%N) || ((65 <=? n)%N && (n <=? 90)%N)
  || ((97 <=? n)%N && (n <=? 122)%N)
  || Ascii.eqb c "_" || Ascii.eqb c "." || Ascii.eqb c "-" || Ascii.eqb c "~"
  || Ascii.eqb c "/".

Fixpoint quote (s : string) : string :=
  match s with
  | EmptyString => EmptyString
  | String c t =>
      if always_safe c then String c (quote t)
      else
        let n := N_of_ascii c in
        String "%" (String (hex_digit (n / 16)) (String (hex_digit (n mod 16)) (quote t)))
  end.

(** [quote(name)] on any [str]: a name that is not UTF-8 reaches Python
    with lone surrogates in it, which [encode("utf-8")] refuses. *)
Definition quote_name (name : string) : Py.result string :=
  if utf8_valid name then inr (quote name) else inl Py.UnicodeEncodeError.

(** [escape] of [xml.sax.saxutils] with no extra entities. *)
Fixpoint escape (s : string) : string :=
  match s with
  | EmptyString => EmptyString
  | String c t =>
      (if Ascii.eqb c "&" then "&amp;"
       else if Ascii.eqb c ">" then "&gt;"
       else if Ascii.eqb c "<" then "&lt;"
       else String c EmptyString) +:+ escape t
  end.

Definition double_quote : ascii := ascii_of_nat 34.
Definition line_feed : ascii := ascii_of_nat 10.
Definition carriage_return : ascii := ascii_of_nat 13.

(** [s.replace(old, new)] for a one-character [old]. *)
Fixpoint replace_char (old new : ascii) (s : string) : string :=
  match s with
  | EmptyString => EmptyString
  | String c t => String (if Ascii.eqb c old then new else c) (replace_char old new t)
  end.

(** *** Paths

    An absolute path is the list of its components below [/]. *)

Abbreviation path := (list string).

(** The pieces of [s] between slashes. *)
Fixpoint split_slash (s : string) : list string :=
  match s with
  | EmptyString => [EmptyString]
  | String c t =>
      if Ascii.eqb c "/" then EmptyString :: split_slash t
      else
        match split_slash t with
        | [] => [String c EmptyString]
        | w :: ws => String c w :: ws
        end
  end.

(** [pathlib] drops empty and [.] components when it parses; [..] stays. *)
Definition components (s : string) : path :=
  List.filter (fun w => negb (String.eqb w EmptyString || String.eqb w ".")) (split_slash s).

Definition is_absolute (s : string) : bool := String.prefix "/" s.

(** [base / name] for an absolute [base]: an absolute right operand
    replaces the left one. *)
Definition joinpath (base : path) (name : string) : path :=
  if is_absolute name then components name else base ++ components name.

(** [self.relative_to(other)]: the components of [self] after those of
    [other], or [ValueError] when [other] is not a prefix of [self]. *)
Fixpoint relative_to (self other : path) : Py.result path :=
  match other, self with
  | [], _ => inr self
  | o :: other', c :: self' =>
      if decide (o = c) then relative_to self' other' else inl Py.ValueError
  | _ :: _, [] => inl Py.ValueError
  end.

(** What the handler asks of the operating system.  Each call answers
    or raises: [resolve] raises [ValueError] on a name with a NUL byte and
    [exists] raises [OSError] on a name longer than the file system
    allows, for instance. *)
Record FileSystem : Type := {
  resolve : path -> Py.result path;     (* [Path.resolve()], non-strict *)
  exists_ : path -> Py.result bool;     (* [Path.exists()] *)
  is_file : path -> Py.result bool      (* [Path.is_file()] *)
}.

(** The questions put to the file system, in the order they are asked. *)
Inductive probe : Type :=
| Resolve (p : path)
| Exists (p : path)
| IsFile (p : path).

Definition is_existence_probe (q : probe) : bool :=
  match q with
  | Resolve _ => false
  | Exists _ | IsFile _ => true
  end.

Inductive body : Type :=
| Text (text : string)
| FileBody (p : path) (content_disposition : string).

Record response : Type := Response {
  status_code : Z;
  payload : body
}.

Section Handlers.

(** [config.DOWNLOAD_DIR], an absolute path. *)
Variable DOWNLOAD_DIR : path.

Variable os : FileSystem.

Definition content_disposition (filename : string) : string :=
  let safe_name :=
    replace_char carriage_return " "
      (replace_char line_feed " " (replace_char double_quote "'" filename)) in
  let encoded_name := quote filename in
  "attachment; filename=" +:+ String double_quote safe_name
  +:+ String double_quote "; filename*=UTF-8''" +:+ encoded_name.

(** [filepath.resolve().relative_to(DOWNLOAD_DIR.resolve())], the body
    of the [try]: the receiver is resolved first, then the argument. *)
Definition containment_check (filepath : path)
  : Py.result path * list probe :=
  match resolve os filepath with
  | inl e => (inl e, [Resolve filepath])
  | inr resolved =>
      match resolve os DOWNLOAD_DIR with
      | inl e => (inl e, [Resolve filepath; Resolve DOWNLOAD_DIR])
      | inr root =>
          (relative_to resolved root, [Resolve filepath; Resolve DOWNLOAD_DIR])
      end
  end.

(** [handle_download] on the [filename] of [request.match_info], which
    the framework has already percent-decoded once.  The result is the
    response, or the exception that leaves the handler (which the
    framework then answers with status 500); [quote] raises one on a
    name that is not UTF-8. *)
Definition handle_download (filename : string)
  : Py.result response * list probe :=
  let filename := unquote filename in
  let filepath := joinpath DOWNLOAD_DIR filename in
  match containment_check filepath with
  | (inl e, asked) =>
      if Py.is_ValueError e
      then (inr (Response 403 (Text "Access denied")), asked)
      else (inl e, asked)
  | (inr _, asked) =>
      match exists_ os filepath with
      | inl e => (inl e, asked ++ [Exists filepath])
      | inr false =>
          (inr (Response 404 (Text "File not found")),
           asked ++ [Exists filepath])
      | inr true =>
          match is_file os filepath with
          | inl e => (inl e, asked ++ [Exists filepath; IsFile filepath])
          | inr false =>
              (inr (Response 404 (Text "File not found")),
               asked ++ [Exists filepath; IsFile filepath])
          | inr true =>
              match quote_name filename with
              | inl e => (inl e, asked ++ [Exists filepath; IsFile filepath])
              | inr _ =>
                  (inr (Response 200
                          (FileBody filepath (content_disposition filename))),
                   asked ++ [Exists filepath; IsFile filepath])
              end
          end
      end
  end.

(** *** The listing page *)

(** A path of the directory on which [stat] answers, with what [stat]
    and [is_file] say of it.  [st_mtime] is a finite float of which the
    handler only uses the order; the model keeps the timestamp as an
    integer with the same order. *)
Record dir_entry : Type := {
  name : string;
  st_mtime : Z;
  entry_is_file : bool;
  st_size : Z
}.

(** One result of [DOWNLOAD_DIR.glob("*")]: a path on which [stat]
    answers, or one on which it raises, as it does with
    [FileNotFoundError] on a symbolic link whose target is gone.  The
    name is the bytes the directory holds. *)
Inductive glob_entry : Type :=
| Entry (f : dir_entry)
| Broken (name : string) (e : Py.exn).

(** [f.stat()] *)
Definition stat (g : glob_entry) : Py.result dir_entry :=
  match g with
  | Entry f => inr f
  | Broken _ e => inl e
  end.

(** The keys of [sorted]: [key] is called on every element, in order,
    before anything is compared. *)
Fixpoint stat_all (entries : list glob_entry) : Py.result (list dir_entry) :=
  match entries with
  | [] => inr []
  | g :: entries' =>
      f ← stat g;
      files ← stat_all entries';
      mret (f :: files)
  end.


(** [sorted(..., key=st_mtime, reverse=True)]: descending and stable,
    entries with equal keys stay in their original order. *)
Fixpoint insert_desc (x : dir_entry) (l : list dir_entry) : list dir_entry :=
  match l with
  | [] => [x]
  | y :: l' =>
      if decide (st_mtime x < st_mtime y)%Z then y :: insert_desc x l'
      else x :: l
  end.

Definition sorted_by_mtime_desc (l : list dir_entry) : list dir_entry :=
  foldr insert_desc [] l.

(** [f"{x:.1f}"]: the decimal with one fractional digit nearest to the
    float, ties to even. *)
Definition tenths_of (m : positive) (e : Z) : Z :=
  let n := (10 * Zpos m)%Z in
  if decide (0 <= e)%Z then Z.shiftl n e
  else
    let d := Z.shiftl 1 (- e) in
    let q := (n / d)%Z in
    let r := (n mod d)%Z in
    match (2 * r ?= d)%Z with
    | Lt => q
    | Gt => (q + 1)%Z
    | Eq => if Z.even q then q else (q + 1)%Z
    end.

Definition format_1f (x : Py.float) : string :=
  match x with
  | S754_nan => "nan"
  | S754_infinity s => if s then "-inf" else "inf"
  | S754_zero s => if s then "-0.0" else "0.0"
  | S754_finite s m e =>
      let t := tenths_of m e in
      (if s then "-" else EmptyString) +:+ Py.str_of_int (t / 10) +:+ "."
      +:+ Py.str_of_int (t mod 10)
  end.

(** [f.stat().st_size / (1024 * 1024)], printed; the divisor is not
    zero, and a quotient too large for a float is not a file size. *)
Definition size_mb_text (size : Z) : string :=
  match Py.truediv size (1024 * 1024) with
  | inr x => format_1f x
  | inl _ => EmptyString
  end.

Definition list_item (encoded_name : string) (f : dir_entry) : string :=
  "<li><a href=" +:+ String double_quote "/download/" +:+ encoded_name
  +:+ String double_quote ">" +:+ escape (name f) +:+ "</a> ("
  +:+ size_mb_text (st_size f) +:+ " MB)</li>".

Definition index_head : string :=
  "<html><head><title>Downloads</title></head><body>"
  +:+ "<h1>Downloaded Files</h1><ul>".

(** One turn of the loop of [handle_index]. *)
Definition index_step (html : Py.result string) (f : dir_entry)
  : Py.result string :=
  html ← html;
  if entry_is_file f then
    encoded_name ← quote_name (name f);
    mret (html +:+ list_item encoded_name f)
  else mret html.

(** [handle_index] on the entries of the directory in the order [glob]
    yields them: the response, or the exception that leaves the handler.
    The directory does not change while the handler runs, so the second
    [f.stat()] of an entry answers as the first did. *)
Definition handle_index (entries : list glob_entry) : Py.result response :=
  files ← stat_all entries;
  let files := sorted_by_mtime_desc files in
  html ← foldl index_step (inr index_head) (take 20 files);
  mret (Response 200 (Text (html +:+ "</ul></body></html>"))).

(** The entries the page shows: the regular files among the first 20
    of the sorted entries. *)
Definition listed (entries : list dir_entry) : list dir_entry :=
  List.filter entry_is_file (take 20 (sorted_by_mtime_desc entries)).

(** The page for a given list of shown entries. *)
Definition index_page (shown : list dir_entry) : response :=
  Response 200
    (Text (index_head
           +:+ String.concat EmptyString
                 (map (fun f => list_item (quote (name f)) f) shown)
           +:+ "</ul></body></html>")).

(** What the design document asks for, in its words: the 20 most
    recently modified files of the directory. *)
Definition most_recent_files (entries : list dir_entry) : list dir_entry :=
  take 20 (sorted_by_mtime_desc (List.filter entry_is_file entries)).

End Handlers.

(** *** A file system without symbolic links

    [resolve] then only removes the [..] components, and raises
    [ValueError] on a NUL byte; a path exists when it is the download
    root, or a file or directory right below it, and asking about a path
    with a component of more than 255 bytes raises [OSError]. *)

Fixpoint resolve_dots (above : path) (p : path) : path :=
  match p with
  | [] => rev above
  | c :: p' =>
      if String.eqb c ".." then resolve_dots (tail above) p'
      else resolve_dots (c :: above) p'
  end.

Definition NAME_MAX : nat := 255.

Definition has_nul (p : path) : bool :=
  existsb (contains (ascii_of_nat 0)) p.

Definition name_too_long (p : path) : bool :=
  existsb (fun c => Nat.ltb NAME_MAX (String.length c)) p.

Definition flat_os (root : path) (entries : list dir_entry) : FileSystem := {|
  resolve p := if has_nul p then inl Py.ValueError else inr (resolve_dots [] p);
  exists_ p :=
    if name_too_long p then inl Py.OSError
    else inr (bool_decide (p = root)
              || existsb (fun f => bool_decide (p = root ++ [name f])) entries);
  is_file p :=
    if name_too_long p then inl Py.OSError
    else inr (existsb (fun f => bool_decide (p = root ++ [name f])
                                && entry_is_file f) entries)
|}.

End Fileserver.

(** ** Sample data *)

Module Sample.

(** A stand-in for the digest: the URL itself, over an alphabet that is
    not hexadecimal; only used to run the store on concrete URLs. *)
Definition digest (url : string) : string := url.

Definition urls (n : nat) : list string :=
  map (fun i => String (ascii_of_nat (32 + i)) EmptyString) (seq 0 n).

Definition download_dir : Fileserver.path :=
  ["home"; "user"; "Downloads"; "telegram-youtube"].

Definition subdirectory (i : nat) : Fileserver.dir_entry := {|
  Fileserver.name := String (ascii_of_nat (97 + i)) EmptyString;
  Fileserver.st_mtime := 100 + Z.of_nat i;
  Fileserver.entry_is_file := false;
  Fileserver.st_size := 4096
|}.

Definition video : Fileserver.dir_entry := {|
  Fileserver.name := "video.mp4";
  Fileserver.st_mtime := 50;
  Fileserver.entry_is_file := true;
  Fileserver.st_size := 3 * 1024 * 1024
|}.

(** Twenty fresh subdirectories and one older video. *)
Definition crowded_dir : list Fileserver.dir_entry :=
  map subdirectory (seq 0 20) ++ [video].

(** A symbolic link whose target has been removed. *)
Definition dangling_link : Fileserver.glob_entry :=
  Fileserver.Broken "latest" Py.FileNotFoundError.

(** A name of 300 bytes, more than a directory entry can hold. *)
Definition long_name : string :=
  string_of_list_ascii (repeat "a"%char 300).

(** The engine reports 100 bytes fetched against an estimate of 50. *)
Definition overshoot : Downloader.progress_event := {|
  Downloader.status := "downloading";
  Downloader.total_bytes := None;
  Downloader.total_bytes_estimate := Some 50%Z;
  Downloader.downloaded_bytes := Some 100%Z
|}.

Definition halfway : Downloader.progress_event := {|
  Downloader.status := "downloading";
  Downloader.total_bytes := Some 200%Z;
  Downloader.total_bytes_estimate := None;
  Downloader.downloaded_bytes := Some 100%Z
|}.

(** A live stream as the engine documents it: the size is not known
    and there is no guess, so both keys hold [None]. *)
Definition unavailable : Downloader.progress_dict := {|
  Downloader.dict_status := "downloading";
  Downloader.dict_total_bytes := Some Downloader.PyNone;
  Downloader.dict_total_bytes_estimate := Some Downloader.PyNone;
  Downloader.dict_downloaded_bytes := Some (Downloader.PyInt 4096)
|}.

Definition finished : Downloader.progress_event := {|
  Downloader.status := "finished";
  Downloader.total_bytes := Some 200%Z;
  Downloader.total_bytes_estimate := None;
  Downloader.downloaded_bytes := Some 200%Z
|}.

(** A job whose download leaves a VP9 file and whose re-encode dies
    half way with exit status 1. *)
Definition clip : Downloader.Path :=
  {| Downloader.parent := "/home/user/Downloads/telegram-youtube";
     Downloader.stem := "clip";
     Downloader.suffix := ".webm" |}.

Definition downloaded : gmap string string :=
  {[ Downloader.path_str clip := "VP9 DATA" ]}.

Definition engine (url fmt : string) (before : gmap string string)
  : Py.result (string * Downloader.Path) * gmap string string :=
  (inr ("vp9", clip), downloaded).

Definition failing_ffmpeg (input : option string) : Z * option string :=
  (1%Z, Some "PARTIAL H264").

(** A re-encode that goes through, and one that exits with 0 but writes
    nothing. *)
Definition working_ffmpeg (input : option string) : Z * option string :=
  (0%Z, Some "H264 DATA").

Definition silent_ffmpeg (input : option string) : Z * option string :=
  (0%Z, None).

Definition empty_world : Downloader.world :=
  {| Downloader.fs := ∅; Downloader.seen := []; Downloader.requests := [] |}.

Definition vp9_video : Downloader.format :=
  {| Downloader.vcodec := "vp9"; Downloader.acodec := "none";
     Downloader.height := Some 720%Z |}.

Definition avc1_video : Downloader.format :=
  {| Downloader.vcodec := "avc1.4d401f"; Downloader.acodec := "none";
     Downloader.height := Some 720%Z |}.

Definition opus_audio : Downloader.format :=
  {| Downloader.vcodec := "none"; Downloader.acodec := "opus";
     Downloader.height := None |}.

Definition vp9_merged : Downloader.format :=
  {| Downloader.vcodec := "vp9"; Downloader.acodec := "opus";
     Downloader.height := Some 360%Z |}.

End Sample.

(** * Properties *)

(** ** Strings *)

Section StringFacts.

Implicit Types s t u : string.

Lemma string_app_cons c s t : String c s +:+ t = String c (s +:+ t).
Proof. reflexivity. Qed.

Lemma string_length_app s t :
  String.length (s +:+ t) = String.length s + String.length t.
Proof.
  induction s as [|c s IH]; [done|].
  rewrite string_app_cons. cbn [String.length]. by rewrite IH.
Qed.

Lemma string_app_assoc s t u : (s +:+ t) +:+ u = s +:+ (t +:+ u).
Proof.
  induction s as [|c s IH]; [done|].
  rewrite !string_app_cons. by rewrite IH.
Qed.

Lemma string_app_nil_r s : s +:+ EmptyString = s.
Proof.
  induction s as [|c s IH]; [done|].
  rewrite string_app_cons. by rewrite IH.
Qed.

Lemma string_concat_cons s (l : list string) :
  String.concat EmptyString (s :: l) = s +:+ String.concat EmptyString l.
Proof. destruct l; cbn [String.concat]; [by rewrite string_app_nil_r | done]. Qed.

(** [md5_hexdigest] on the test suite of RFC 1321. *)
Lemma md5_test_suite :
  Hashlib.md5_hexdigest EmptyString = "d41d8cd98f00b204e9800998ecf8427e"
  ∧ Hashlib.md5_hexdigest "a" = "0cc175b9c0f1b6a831c399e269772661"
  ∧ Hashlib.md5_hexdigest "abc" = "900150983cd24fb0d6963f7d28e17f72"
  ∧ Hashlib.md5_hexdigest "message digest"
    = "f96b697d7cb7938d525a2f31aaf161d0"
  ∧ Hashlib.md5_hexdigest "abcdefghijklmnopqrstuvwxyz"
    = "c3fcd3d76192e4007dfb496cca67e13b"
  ∧ Hashlib.md5_hexdigest
      "ABCDEFGHIJKLMNOPQRSTUVWXYZabcdefghijklmnopqrstuvwxyz0123456789"
    = "d174ab98d277d9f5a5611c2c9f419d9f"
  ∧ Hashlib.md5_hexdigest
      "12345678901234567890123456789012345678901234567890123456789012345678901234567890"
    = "57edf4a22be3c955ac49da2e2107b67a".
Proof. split_and!; by vm_compute. Qed.

End StringFacts.

(** ** Binary64 arithmetic

    Rounding a value that lies between two representable bounds gives a
    float between the same bounds. *)

Section FloatFacts.

Import Py.
Local Open Scope Z_scope.

Lemma digits2_pos_size p : digits2_pos p = Pos.size p.
Proof. induction p; simpl; congruence. Qed.

Lemma Zdigits2_log2 m : 0 < m → Zdigits2 m = Z.log2 m + 1.
Proof.
  destruct m as [|p|p]; try lia. intros _.
  simpl. rewrite digits2_pos_size. destruct p; simpl; lia.
Qed.

Lemma Zdigits2_le m k : 0 <= k → 0 <= m < 2 ^ k → Zdigits2 m <= k.
Proof.
  intros Hk [Hm Hlt]. destruct (Z.eq_dec m 0) as [->|Hne]; [simpl; lia|].
  rewrite Zdigits2_log2 by lia.
  apply Z.log2_lt_pow2 in Hlt; lia.
Qed.

Lemma shr_1_between lo hi mrs :
  0 <= lo → between (2 * lo) (2 * hi) mrs → between lo hi (shr_1 mrs).
Proof.
  intros Hlo [Hm Hstrict]. destruct mrs as [m r s].
  unfold between, inexact in *. cbn [shr_m shr_r shr_s] in *.
  destruct m as [|[p|p|]|p]; cbn [shr_1 shr_m shr_r shr_s orb]; [..|lia].
  - split; [lia|]. intros Hrs. specialize (Hstrict Hrs). lia.
  - rewrite Pos2Z.inj_xI in Hm. split; [lia|]. intros _. lia.
  - rewrite Pos2Z.inj_xO in Hm, Hstrict. split; [lia|].
    intros Hrs. specialize (Hstrict Hrs). lia.
  - split; [lia|]. intros _. lia.
Qed.

Lemma pow2_xO p : 2 ^ Z.pos p~0 = 2 ^ Z.pos p * 2 ^ Z.pos p.
Proof. rewrite <- Z.pow_add_r by lia. f_equal. lia. Qed.

Lemma pow2_xI p : 2 ^ Z.pos p~1 = 2 * (2 ^ Z.pos p * 2 ^ Z.pos p).
Proof.
  rewrite <- pow2_xO, <- (Z.pow_succ_r 2 (Z.pos p~0)) by lia. reflexivity.
Qed.

Lemma iter_shr_1_between p : ∀ lo hi mrs,
  0 <= lo → between (2 ^ Zpos p * lo) (2 ^ Zpos p * hi) mrs →
  between lo hi (SpecFloat.iter_pos shr_1 p mrs).
Proof.
  induction p as [p IH|p IH|]; intros lo hi mrs Hlo Hb; cbn [SpecFloat.iter_pos].
  - apply IH; [done|]. apply IH; [lia|]. apply shr_1_between; [lia|].
    replace (2 * (2 ^ Z.pos p * (2 ^ Z.pos p * lo))) with (2 ^ Z.pos p~1 * lo);
      [replace (2 * (2 ^ Z.pos p * (2 ^ Z.pos p * hi))) with (2 ^ Z.pos p~1 * hi);
       [done|] |].
    all: rewrite pow2_xI; ring.
  - apply IH; [done|]. apply IH; [lia|].
    replace (2 ^ Z.pos p * (2 ^ Z.pos p * lo)) with (2 ^ Z.pos p~0 * lo);
      [replace (2 ^ Z.pos p * (2 ^ Z.pos p * hi)) with (2 ^ Z.pos p~0 * hi);
       [done|] |].
    all: rewrite pow2_xO; ring.
  - apply shr_1_between; [done|]. by rewrite Z.pow_1_r in Hb.
Qed.

Lemma shr_between lo hi mrs e n :
  0 <= lo →
  between (2 ^ Z.max n 0 * lo) (2 ^ Z.max n 0 * hi) mrs →
  between lo hi (shr mrs e n).1 ∧ (shr mrs e n).2 = e + Z.max n 0.
Proof.
  intros Hlo Hb. destruct n as [|p|p]; cbn [shr fst snd].
  - rewrite Z.max_id, Z.pow_0_r, !Z.mul_1_l in Hb. split; [done | lia].
  - rewrite Z.max_l in Hb by lia. split; [by apply iter_shr_1_between | lia].
  - rewrite Z.max_r, Z.pow_0_r, !Z.mul_1_l in Hb by lia. split; [done | lia].
Qed.

Lemma round_nearest_even_between lo hi mrs :
  between lo hi mrs →
  lo <= round_nearest_even (shr_m mrs) (loc_of_shr_record mrs) <= hi.
Proof.
  destruct mrs as [m [|] [|]]; unfold between, inexact;
    cbn [shr_m shr_r shr_s orb loc_of_shr_record round_nearest_even];
    intros [Hm Hstrict]; try destruct (Z.even m); lia.
Qed.

Lemma shr_m_of_loc m l : shr_m (shr_record_of_loc m l) = m.
Proof. by destruct l as [|[| |]]. Qed.

Lemma shr_fexp_scaled lo hi c m e l :
  0 <= lo → 0 < hi < 2 ^ 53 → -1074 <= c → e <= c →
  scaled lo hi c e (shr_record_of_loc m l) →
  let '(mrs', e') := shr_fexp 53 1024 m e l in
  e' <= c ∧ scaled lo hi c e' mrs'.
Proof.
  intros Hlo Hhi Hc He Hb. unfold shr_fexp.
  set (n := fexp 53 1024 (Zdigits2 m + e) - e).
  assert (0 <= m < 2 ^ (53 + (c - e))) as Hm.
  { destruct Hb as [Hm _]. rewrite shr_m_of_loc in Hm.
    assert (0 < 2 ^ (c - e)) by (apply Z.pow_pos_nonneg; lia).
    rewrite Z.pow_add_r by lia. nia. }
  assert (e + Z.max n 0 <= c) as He'.
  { pose proof (Zdigits2_le m (53 + (c - e)) ltac:(lia) Hm).
    unfold n, fexp, emin. lia. }
  assert (2 ^ (c - e) = 2 ^ Z.max n 0 * 2 ^ (c - (e + Z.max n 0))) as Hpow.
  { rewrite <- Z.pow_add_r by lia. f_equal. lia. }
  destruct (shr (shr_record_of_loc m l) e n) as [mrs' e'] eqn:Hshr.
  destruct (shr_between (lo * 2 ^ (c - (e + Z.max n 0)))
              (hi * 2 ^ (c - (e + Z.max n 0)))
              (shr_record_of_loc m l) e n) as [Hb' He''].
  - assert (0 < 2 ^ (c - (e + Z.max n 0))) by (apply Z.pow_pos_nonneg; lia).
    nia.
  - unfold scaled in Hb. rewrite Hpow in Hb.
    by rewrite !Z.mul_assoc, !(Z.mul_comm (2 ^ Z.max n 0)), <- !Z.mul_assoc.
  - rewrite Hshr in Hb', He''. cbn [fst snd] in *. subst e'.
    split; [lia | done].
Qed.

Lemma binary_round_aux_scaled lo hi c mx ex lx :
  0 <= lo → 0 < hi < 2 ^ 53 → -1074 <= c <= 971 → ex <= c →
  scaled lo hi c ex (shr_record_of_loc mx lx) →
  match binary_round_aux 53 1024 false mx ex lx with
  | S754_zero _ => lo = 0
  | S754_finite s m e =>
      s = false ∧ e <= c ∧ lo * 2 ^ (c - e) <= Zpos m <= hi * 2 ^ (c - e)
  | _ => False
  end.
Proof.
  intros Hlo Hhi Hc Hex Hb. unfold binary_round_aux.
  pose proof (shr_fexp_scaled lo hi c mx ex lx Hlo Hhi ltac:(lia) Hex Hb) as H1.
  destruct (shr_fexp 53 1024 mx ex lx) as [mrs1 e1].
  destruct H1 as [He1 Hb1].
  apply round_nearest_even_between in Hb1.
  set (m2 := round_nearest_even (shr_m mrs1) (loc_of_shr_record mrs1)) in *.
  pose proof (shr_fexp_scaled lo hi c m2 e1 loc_Exact Hlo Hhi ltac:(lia) He1) as H2.
  destruct (shr_fexp 53 1024 m2 e1 loc_Exact) as [mrs2 e2].
  destruct H2 as [He2 [Hm2 _]]; [by split|].
  assert (0 < 2 ^ (c - e2)) by (apply Z.pow_pos_nonneg; lia).
  destruct (shr_m mrs2) as [|m|m] eqn:Hm.
  - nia.
  - rewrite (proj2 (Z.leb_le e2 (1024 - 53))) by lia. done.
  - nia.
Qed.


Lemma new_location_zero b q :
  inexact (shr_record_of_loc q (new_location b 0)) = false.
Proof.
  unfold new_location, new_location_even, new_location_odd.
  by destruct (Z.even b).
Qed.

(** The quotient and remainder the division hands to the rounding. *)
Lemma div_core_spec a b :
  0 < a → 0 < b →
  let '(q, e, l) := SFdiv_core_binary prec emax a 0 b 0 in
  e = Z.min (fexp prec emax (Zdigits2 a - Zdigits2 b)) 0
  ∧ ∃ r, 0 <= r < b ∧ a * 2 ^ (- e) = b * q + r ∧ l = new_location b r.
Proof.
  intros Ha Hb. unfold SFdiv_core_binary.
  rewrite !Z.add_0_r, Z.sub_diag.
  set (e := Z.min (fexp prec emax (Zdigits2 a - Zdigits2 b)) 0).
  match goal with
  | |- context [Z.div_eucl ?m b] => set (m' := m)
  end.
  assert (m' = a * 2 ^ (- e)) as Hm'.
  { subst m'. replace (0 - e) with (- e) by lia.
    destruct (- e) as [|s|s] eqn:Hs.
    - by rewrite Z.pow_0_r, Z.mul_1_r.
    - by rewrite Z.shiftl_mul_pow2.
    - lia. }
  pose proof (Z_div_mod m' b ltac:(lia)) as Hdiv.
  destruct (Z.div_eucl m' b) as [q r]. destruct Hdiv as [Heq Hr].
  split; [done|]. exists r. by rewrite <- Hm'.
Qed.

(** [a / b <= 1] for [0 < a <= b]. *)
Lemma truediv_le_one a b :
  0 < a <= b → ∃ x, truediv a b = inr x ∧ float_between 0 1 0 x.
Proof.
  intros [Ha Hab]. unfold truediv.
  rewrite (proj2 (Z.eqb_neq b 0)), (proj2 (Z.eqb_neq a 0)) by lia.
  rewrite (proj2 (Z.ltb_ge a 0)), (proj2 (Z.ltb_ge b 0)) by lia.
  rewrite !Z.abs_eq by lia. cbn [xorb].
  pose proof (div_core_spec a b Ha ltac:(lia)) as Hcore.
  destruct (SFdiv_core_binary prec emax a 0 b 0) as [[q e] l].
  destruct Hcore as (He & r & Hr & Heq & Hl).
  assert (e <= 0) as He0 by lia.
  assert (0 < 2 ^ (- e)) as Hpow by (apply Z.pow_pos_nonneg; lia).
  assert (scaled 0 1 0 e (shr_record_of_loc q l)) as Hscaled.
  { unfold scaled, between. rewrite shr_m_of_loc.
    rewrite Z.mul_0_l, Z.mul_1_l, Z.sub_0_l.
    split; [nia|]. intros Hinexact.
    assert (r ≠ 0) by (intros ->; rewrite Hl, new_location_zero in Hinexact; done).
    nia. }
  pose proof (binary_round_aux_scaled 0 1 0 q e l
                ltac:(lia) ltac:(lia) ltac:(lia) He0 Hscaled) as Hround.
  change 53 with prec in Hround. change 1024 with emax in Hround.
  destruct (binary_round_aux prec emax false q e l) as [s| | |s m e'];
    try done; by eexists.
Qed.

Lemma float_of_int_100 :
  float_of_int 100 = S754_finite false (25 * 2 ^ 48) (-46).
Proof. reflexivity. Qed.

(** [x * 100 <= 100] for [x <= 1]. *)
Lemma mul_100_le x :
  float_between 0 1 0 x → float_between 0 25 2 (mul_int x 100).
Proof.
  unfold mul_int. rewrite float_of_int_100.
  destruct x as [s| | |s m e]; cbn [float_between SFmul]; try done.
  intros (-> & He & _ & Hm). cbn [xorb].
  rewrite Z.mul_1_l, Z.sub_0_l in Hm.
  assert (0 < 2 ^ (- e)) by (apply Z.pow_pos_nonneg; lia).
  apply (binary_round_aux_scaled 0 25 2); try lia.
  unfold scaled, between. cbn [shr_record_of_loc shr_m inexact shr_r shr_s orb].
  replace (2 - (e + -46)) with (48 + - e) by lia.
  rewrite Z.pow_add_r by lia. rewrite Pos2Z.inj_mul.
  split; [|done]. change (Z.pos (25 * 2 ^ 48)) with (25 * 2 ^ 48). nia.
Qed.

(** [int(x)] lies in [0, 100] for [0 <= x <= 100]. *)
Lemma int_of_float_le x :
  float_between 0 25 2 x → ∃ p, int_of_float x = inr p ∧ 0 <= p <= 100.
Proof.
  destruct x as [s| | |s m e]; cbn [float_between int_of_float]; try done.
  - intros _. exists 0. split; [done | lia].
  - intros (-> & He & _ & Hm). eexists. split; [reflexivity|].
    cbn [cond_Zopp].
    destruct (Z.le_gt_cases 0 e) as [Hpos|Hneg].
    + rewrite Z.shiftl_mul_pow2 by done.
      assert (2 ^ 2 = 2 ^ (2 - e) * 2 ^ e) as Hsplit
        by (rewrite <- Z.pow_add_r by lia; f_equal; lia).
      assert (0 < 2 ^ e) by (apply Z.pow_pos_nonneg; lia).
      change (2 ^ 2) with 4 in Hsplit. nia.
    + rewrite <- (Z.opp_involutive e), Z.shiftl_opp_r, Z.shiftr_div_pow2 by lia.
      assert (2 ^ (2 - e) = 4 * 2 ^ (- e)) as Hsplit.
      { replace (2 - e) with (2 + - e) by lia. by rewrite Z.pow_add_r by lia. }
      assert (0 < 2 ^ (- e)) by (apply Z.pow_pos_nonneg; lia).
      split; [apply Z.div_pos; lia|].
      apply Z.div_le_upper_bound; lia.
Qed.

(** [size / (1024 * 1024)] is exact for a size below [2 ^ 53]. *)
Lemma truediv_mib size :
  0 < size < 2 ^ 53 →
  ∃ x, truediv size (1024 * 1024) = inr x ∧ float_between size size (-20) x.
Proof.
  intros Hsize. unfold truediv.
  change (1024 * 1024 =? 0) with false. change (1024 * 1024 <? 0) with false.
  rewrite (proj2 (Z.eqb_neq size 0)), (proj2 (Z.ltb_ge size 0)) by lia.
  rewrite Z.abs_eq by lia. change (Z.abs (1024 * 1024)) with (2 ^ 20).
  cbn [xorb].
  pose proof (div_core_spec size (2 ^ 20) ltac:(lia) ltac:(lia)) as Hcore.
  destruct (SFdiv_core_binary prec emax size 0 (2 ^ 20) 0) as [[q e] l].
  destruct Hcore as (He & r & Hr & Heq & Hl).
  change (Zdigits2 (2 ^ 20)) with 21 in He.
  assert (1 <= Zdigits2 size <= 53) as Hdigits.
  { split; [|apply Zdigits2_le; lia].
    rewrite Zdigits2_log2 by lia. pose proof (Z.log2_nonneg size). lia. }
  assert (e = Zdigits2 size - 74) as He'
    by (rewrite He; unfold fexp, emin, prec, emax; lia).
  assert (2 ^ (- e) = 2 ^ 20 * 2 ^ (-20 - e)) as Hpow
    by (rewrite <- Z.pow_add_r by lia; f_equal; lia).
  assert (0 < 2 ^ (-20 - e)) as Hw by (apply Z.pow_pos_nonneg; lia).
  rewrite Hpow in Heq. change (2 ^ 20) with 1048576 in *.
  assert (r = 0 ∧ q = size * 2 ^ (-20 - e)) as [-> ->] by lia.
  assert (scaled size size (-20) e
            (shr_record_of_loc (size * 2 ^ (-20 - e)) l)) as Hscaled.
  { unfold scaled, between. rewrite shr_m_of_loc. split; [lia|].
    rewrite Hl, new_location_zero. done. }
  pose proof (binary_round_aux_scaled size size (-20) _ e l
                ltac:(lia) ltac:(lia) ltac:(lia) ltac:(lia) Hscaled) as Hround.
  change 53 with prec in Hround. change 1024 with emax in Hround.
  destruct (binary_round_aux prec emax false _ e l) as [s| | |s m e'];
    try done; by eexists.
Qed.

End FloatFacts.

(** ** Dictionaries *)

Section PyDictFacts.

Context {V : Type}.
Implicit Types (d : PyDict.t V) (k : string) (v : V).

Lemma get_set_eq d k v : PyDict.get k (PyDict.set k v d) = Some v.
Proof.
  induction d as [|[k' v'] d IH]; simpl.
  - by rewrite decide_True.
  - destruct (decide (k = k')) as [->|Hne]; simpl.
    + by rewrite decide_True.
    + by rewrite decide_False.
Qed.

Lemma get_set_ne d k k' v :
  k ≠ k' → PyDict.get k' (PyDict.set k v d) = PyDict.get k' d.
Proof.
  intros Hne. induction d as [|[k0 v0] d IH]; simpl.
  - destruct (decide (k' = k)); congruence.
  - destruct (decide (k = k0)) as [->|Hk]; simpl.
    + destruct (decide (k' = k0)); congruence.
    + destruct (decide (k' = k0)); [done | apply IH].
Qed.

Lemma keys_cons k v d : PyDict.keys ((k, v) :: d) = k :: PyDict.keys d.
Proof. reflexivity. Qed.

Lemma get_None_not_key d k : k ∉ PyDict.keys d → PyDict.get k d = None.
Proof.
  induction d as [|[k' v'] d IH]; [done|].
  rewrite keys_cons. intros [Hne Hnot]%not_elem_of_cons. cbn [PyDict.get].
  destruct (decide (k = k')); [done | by apply IH].
Qed.

Lemma keys_set_old d k v :
  k ∈ PyDict.keys d → PyDict.keys (PyDict.set k v d) = PyDict.keys d.
Proof.
  induction d as [|[k' v'] d IH]; rewrite ?keys_cons.
  - by intros ?%elem_of_nil.
  - intros Hin. cbn [PyDict.set].
    destruct (decide (k = k')) as [->|Hne]; [done|].
    rewrite !keys_cons. f_equal. apply IH.
    by apply elem_of_cons in Hin as [?|?].
Qed.

Lemma keys_set_new d k v :
  k ∉ PyDict.keys d → PyDict.keys (PyDict.set k v d) = PyDict.keys d ++ [k].
Proof.
  induction d as [|[k' v'] d IH]; rewrite ?keys_cons; [done|].
  intros [Hne Hnot]%not_elem_of_cons. cbn [PyDict.set].
  destruct (decide (k = k')); [done|].
  rewrite !keys_cons, IH; done.
Qed.

Lemma length_set_le d k v : length (PyDict.set k v d) <= S (length d).
Proof.
  induction d as [|[k' v'] d IH]; simpl; [lia|].
  destruct (decide (k = k')); simpl; lia.
Qed.

Lemma wf_set d k v : PyDict.wf d → PyDict.wf (PyDict.set k v d).
Proof.
  unfold PyDict.wf. intros Hd.
  destruct (decide (k ∈ PyDict.keys d)) as [Hin|Hnot].
  - by rewrite keys_set_old.
  - rewrite keys_set_new by done.
    apply NoDup_app. split_and!; [done | | apply NoDup_singleton].
    intros x Hx ->%list_elem_of_singleton. done.
Qed.

Lemma wf_drop d n : PyDict.wf d → PyDict.wf (drop n d).
Proof.
  unfold PyDict.wf, PyDict.keys. intros Hd.
  rewrite <- (take_drop n d), map_app in Hd.
  by apply NoDup_app in Hd as (_ & _ & ?).
Qed.

(** Deleting the first [n] keys, one after the other, drops the first
    [n] pairs. *)
Lemma del_oldest d n :
  foldl (fun s k => PyDict.del k s) d (take n (PyDict.keys d)) = drop n d.
Proof.
  revert d. induction n as [|n IH]; intros [|[k v] d]; simpl; try done.
  rewrite decide_True; [apply IH | done].
Qed.

End PyDictFacts.

(** ** The token store *)

Section TokenStoreFacts.

Variable md5_hexdigest : string -> string.

Abbreviation put := (Bot._store_url md5_hexdigest).
Abbreviation key_of url := (substring 0 10 (md5_hexdigest url)).

Lemma evict_oldest_half_drop store :
  Bot.evict_oldest_half store = drop (length store / 2) store.
Proof.
  unfold Bot.evict_oldest_half, PyDict.keys.
  rewrite length_map. apply del_oldest.
Qed.

Lemma put_eq store url :
  put store url
  = (PyDict.set (key_of url) url
       (if decide (100 <= length store) then drop (length store / 2) store
        else store),
     key_of url).
Proof.
  unfold Bot._store_url, Bot._URL_STORE_MAX.
  destruct (decide (100 <= length store)); by rewrite ?evict_oldest_half_drop.
Qed.

Lemma put_length store url :
  length store <= 100 → length (put store url).1 <= 100.
Proof.
  intros Hle. rewrite put_eq. cbn [fst snd].
  etransitivity; [apply length_set_le|].
  destruct (decide (100 <= length store)) as [Hfull|Hroom]; [|lia].
  rewrite length_drop.
  assert (length store = 100) as -> by lia.
  change (100 / 2) with 50. lia.
Qed.

Lemma put_wf store url : PyDict.wf store → PyDict.wf (put store url).1.
Proof.
  intros Hwf. rewrite put_eq. cbn [fst snd]. apply wf_set.
  destruct (decide (100 <= length store)); [by apply wf_drop | done].
Qed.

Lemma puts_invariant urls store :
  length store <= 100 → PyDict.wf store →
  let store' := foldl (fun s u => (put s u).1) store urls in
  length store' <= 100 ∧ PyDict.wf store'.
Proof.
  revert store. induction urls as [|u urls IH]; intros store Hlen Hwf; simpl.
  - done.
  - apply IH; [by apply put_length | by apply put_wf].
Qed.

Lemma stores_after_invariant urls :
  length (Bot.stores_after md5_hexdigest urls) <= 100
  ∧ PyDict.wf (Bot.stores_after md5_hexdigest urls).
Proof.
  apply (puts_invariant urls []); [simpl; lia | apply NoDup_nil_2].
Qed.

(** As long as no call evicts, a key gives back the URL it was stored
    with, unless another URL came in under the same key. *)
Lemma stores_from_keeps store key url (later : list string) :
  Bot._get_url store key = Some url →
  Bot.evicts md5_hexdigest store later = false →
  Forall (fun url2 => key_of url2 = key → url2 = url) later →
  Bot._get_url (Bot.stores_from md5_hexdigest store later) key = Some url.
Proof.
  revert store. induction later as [|url2 later IH]; intros store Hget Hroom Hkeys.
  - done.
  - cbn [Bot.evicts] in Hroom. apply orb_false_elim in Hroom as [Hfull Hroom].
    apply bool_decide_eq_false in Hfull.
    apply Forall_cons in Hkeys as [Hkey Hkeys].
    unfold Bot.stores_from in *. cbn [foldl].
    apply IH; [|done..].
    rewrite put_eq. cbn [fst]. unfold Bot._URL_STORE_MAX in Hfull.
    rewrite decide_False by done. unfold Bot._get_url in *.
    destruct (decide (key = key_of url2)) as [->|Hne].
    + rewrite (Hkey eq_refl). apply get_set_eq.
    + by rewrite get_set_ne.
Qed.

(** C3, as the code has it: [_get_url] on the key [_store_url] returns
    gives the URL back; the key is the first ten characters of the
    hexadecimal digest of the URL, whatever the store holds, so storing
    the same URL again yields the same key; and the URL stays retrievable
    across any later calls none of which evicts or stores another URL
    under the same key.  A later URL with the same key takes the place of
    the earlier one. *)
Theorem get_store_url_roundtrip (store : PyDict.t string) (url : string) :
  let store' := (put store url).1 in
  let key := (put store url).2 in
  Bot._get_url store' key = Some url
  ∧ key = substring 0 10 (md5_hexdigest url)
  ∧ (∀ store2 : PyDict.t string, (put store2 url).2 = key)
  ∧ (put store' url).2 = key
  ∧ Bot._get_url (put store' url).1 key = Some url
  ∧ (∀ later : list string,
       Bot.evicts md5_hexdigest store' later = false →
       Forall (fun url2 => (put store' url2).2 = key → url2 = url) later →
       Bot._get_url (Bot.stores_from md5_hexdigest store' later) key = Some url)
  ∧ (∀ url2 : string,
       (put store' url2).2 = key →
       Bot._get_url (put store' url2).1 key = Some url2).
Proof.
  rewrite put_eq. cbn [fst snd].
  split_and!.
  - apply get_set_eq.
  - done.
  - intros store2. by rewrite put_eq.
  - by rewrite put_eq.
  - rewrite put_eq. cbn [fst snd]. apply get_set_eq.
  - intros later Hroom Hkeys. apply stores_from_keeps; [apply get_set_eq | done |].
    eapply Forall_impl; [exact Hkeys|].
    intros url2 Hsame Hkey. apply Hsame. by rewrite put_eq.
  - intros url2. rewrite !put_eq. cbn [fst snd]. intros <-. apply get_set_eq.
Qed.

(** C4: whatever URLs are stored, starting from the empty store, the
    store holds at most 100 entries; and a call that finds 100 entries
    deletes the oldest half, at least the 50 first-inserted ones, before
    it inserts: the new store is the insertion into what is left, and
    none of the 50 oldest keys is retrievable unless it is the new key. *)
Theorem store_bounded_and_evicts_oldest_half :
  (∀ urls : list string, length (Bot.stores_after md5_hexdigest urls) <= 100)
  ∧ (∀ (urls : list string) (url : string),
       let store := Bot.stores_after md5_hexdigest urls in
       100 <= length store →
       50 <= length store / 2
       ∧ (put store url).1
         = PyDict.set (put store url).2 url (drop (length store / 2) store)
       ∧ ∀ k : string,
           k ∈ take 50 (PyDict.keys store) → k ≠ (put store url).2 →
           Bot._get_url (put store url).1 k = None).
Proof.
  split.
  - intros urls. apply stores_after_invariant.
  - intros urls url store Hfull.
    destruct (stores_after_invariant urls) as [Hle Hwf].
    fold store in Hle, Hwf.
    assert (length store = 100) as Hlen by lia.
    rewrite put_eq. cbn [fst snd]. rewrite decide_True by done.
    rewrite Hlen. change (100 / 2) with 50.
    split_and!; [lia | done |].
    intros k Hk Hne. unfold Bot._get_url.
    rewrite get_set_ne by done.
    apply get_None_not_key.
    unfold PyDict.wf, PyDict.keys in *.
    rewrite <- (take_drop 50 store), map_app in Hwf.
    apply NoDup_app in Hwf as (_ & Hdisj & _).
    change (map fst store) with (fst <$> store) in Hk.
    rewrite <- fmap_take in Hk. by apply Hdisj.
Qed.

End TokenStoreFacts.

(** ** The progress throttler *)

Section ThrottlerFacts.

Import Bot.

(** Two notifications that may follow one another. *)
Local Abbreviation differs :=
  (fun a b : notification => shown_percent a ≠ shown_percent b).

Lemma update_progress_from_sorted last_shown samples :
  Sorted differs (update_progress_from last_shown samples)
  ∧ HdRel differs (Notify last_shown EmptyString) (update_progress_from last_shown samples).
Proof.
  revert last_shown.
  induction samples as [|percent samples IH]; intros last_shown.
  - split; constructor.
  - cbn [update_progress_from].
    destruct (decide (100 <= percent)%Z) as [Hdone|Hmore];
      case_bool_decide as Hshow.
    + split; repeat constructor. simpl. congruence.
    + split; constructor.
    + destruct (IH percent) as [Hs Hh]. split.
      * constructor; [done|].
        destruct Hh; constructor. done.
      * constructor. simpl. congruence.
    + apply IH.
Qed.

Lemma Sorted_lookup {A} (R : A → A → Prop) (l : list A) i a b :
  Sorted R l → l !! i = Some a → l !! S i = Some b → R a b.
Proof.
  intros Hs. revert i. induction Hs as [|x l Hs IH Hhd]; intros i Ha Hb.
  - done.
  - destruct i as [|i]; simpl in *.
    + destruct Hhd; simpl in *; congruence.
    + by eapply IH.
Qed.

Lemma update_progress_from_terminal last_shown before v after :
  (last_shown < 100)%Z → Forall (fun x => x < 100)%Z before → (100 <= v)%Z →
  update_progress_from last_shown (before ++ v :: after)
  = update_progress_from last_shown before ++ [Notify v "Processing..."].
Proof.
  intros Hlast Hbefore Hv. revert last_shown Hlast.
  induction Hbefore as [|x before Hx Hbefore IH]; intros last_shown Hlast.
  - cbn [app update_progress_from].
    rewrite bool_decide_true by lia. rewrite decide_True by done.
    unfold progress_text. by rewrite decide_False by lia.
  - cbn [app update_progress_from].
    destruct (decide (100 <= x)%Z); [lia|].
    case_bool_decide; rewrite IH by done; [|done].
    by rewrite app_assoc.
Qed.

(** C5: whatever values the loop reads, two consecutive calls of the
    observer never carry the same percent; and when the first value of
    100 or more is read (all earlier ones being below), the loop makes
    exactly one more call, the "Processing..." one, and none after it,
    whatever is read later. *)
Theorem update_progress_throttles (samples : list Z) :
  (∀ (i : nat) (a b : notification),
     update_progress samples !! i = Some a →
     update_progress samples !! S i = Some b →
     shown_percent a ≠ shown_percent b)
  ∧ (∀ (before after : list Z) (v : Z),
       samples = before ++ v :: after →
       Forall (fun x => x < 100)%Z before → (100 <= v)%Z →
       update_progress samples
       = update_progress before ++ [Notify v "Processing..."]).
Proof.
  split.
  - intros i a b Ha Hb.
    eapply (Sorted_lookup differs); [|exact Ha|exact Hb].
    apply update_progress_from_sorted.
  - intros before after v -> Hbefore Hv.
    by apply update_progress_from_terminal.
Qed.

End ThrottlerFacts.


(** ** The progress hook *)

Section HookFacts.

Import Downloader.
Local Open Scope Z_scope.

Lemma percent_of_range downloaded total :
  0 <= downloaded <= total → 0 < total →
  ∃ p, percent_of downloaded total = inr p ∧ 0 <= p <= 100.
Proof.
  intros Hd Ht. unfold percent_of.
  assert (∃ x, Py.truediv downloaded total = inr x ∧ Py.float_between 0 1 0 x)
    as (x & -> & Hx).
  { destruct (Z.eq_dec downloaded 0) as [->|Hne].
    - unfold Py.truediv. rewrite (proj2 (Z.eqb_neq total 0)) by lia.
      by eexists.
    - apply truediv_le_one. lia. }
  cbn [mbind Py.result_bind].
  by apply int_of_float_le, mul_100_le.
Qed.

Lemma percent_of_divisor downloaded total :
  total ≠ 0 → percent_of downloaded total ≠ inl Py.ZeroDivisionError.
Proof.
  intros Ht. unfold percent_of, Py.truediv.
  rewrite (proj2 (Z.eqb_neq total 0)) by done.
  destruct (downloaded =? 0).
  - cbn [mbind Py.result_bind].
    by destruct (Py.mul_int _ 100).
  - destruct (SFdiv_core_binary _ _ _ _ _ _) as [[q e] l].
    destruct (binary_round_aux _ _ _ q e l) as [s| | |s m e'];
      cbn [mbind Py.result_bind]; try done;
      by destruct (Py.mul_int _ 100).
Qed.

Lemma hook_range self d :
  consistent d →
  ∃ self' out, hook self d = inr (self', out)
               ∧ Forall (fun p => 0 <= p <= 100) (delivered out).
Proof.
  intros Hd. unfold hook.
  destruct (decide (status d = "downloading")) as [Hs|Hs].
  - destruct (decide (0 < event_total d)) as [Ht|Ht].
    + destruct (percent_of_range _ _ (Hd Hs Ht) Ht) as (p & -> & Hp).
      cbn [mbind Py.result_bind].
      destruct (_ && _); do 2 eexists; (split; [reflexivity|]);
        cbn; repeat constructor; lia.
    + do 2 eexists. split; [reflexivity | constructor].
  - destruct (decide (status d = "finished")); [destruct (has_callback self)|];
      do 2 eexists; (split; [reflexivity|]); cbn; repeat constructor; lia.
Qed.

Lemma delivered_app out1 out2 :
  delivered (out1 ++ out2) = delivered out1 ++ delivered out2.
Proof. apply omap_app. Qed.

(** C7, as the code has it: over any sequence of events in which the
    bytes fetched never exceed the total in use (nor fall below zero),
    the hook returns normally and every percent it hands to the callback
    is an integer from 0 to 100; a "finished" event hands over 100. *)
Theorem hook_percent_in_range (self : DownloadProgress)
    (ds : list progress_event) :
  Forall consistent ds →
  (∃ self' out, run_hook self ds = inr (self', out)
                ∧ Forall (fun p => 0 <= p <= 100) (delivered out))
  ∧ (∀ d, status d = "finished" → has_callback self = true →
       hook self d = inr (self, [Callback 100 "processing"])).
Proof.
  intros Hds. split.
  - revert self.
    induction Hds as [|d ds Hd Hds IH]; intros self; cbn [run_hook].
    + do 2 eexists. split; [reflexivity | constructor].
    + destruct (hook_range self d Hd) as (self1 & out1 & -> & H1).
      cbn [mbind Py.result_bind].
      destruct (IH self1) as (self2 & out2 & -> & H2).
      cbn [mbind Py.result_bind].
      do 2 eexists. split; [reflexivity|].
      rewrite delivered_app. by apply Forall_app.
  - intros d Hs Hcb. unfold hook. rewrite Hs, Hcb.
    rewrite decide_False by discriminate. by rewrite decide_True.
Qed.

(** On the dictionary of an event whose byte counts are [int]s the hook
    does what [hook] does on the event. *)
Lemma hook_dict_of (self : DownloadProgress) (d : progress_event) :
  hook_dict self (dict_of d) = hook self d.
Proof.
  unfold hook_dict, hook, dict_total, event_total, dict_of.
  cbn [dict_status dict_total_bytes dict_total_bytes_estimate
       dict_downloaded_bytes].
  destruct (decide (status d = "downloading")); [|done].
  destruct (downloaded_bytes d) as [dl|], (total_bytes_estimate d) as [est|],
    (total_bytes d) as [n|];
    cbn [fmap option_fmap option_map from_option id truthy];
    try (destruct (decide (n = 0)) as [->|Hn];
         [rewrite bool_decide_false by (intros H; by apply H)
         |rewrite bool_decide_true by done]);
    reflexivity.
Qed.

(** The hook divides by a positive total or not at all. *)
Lemma hook_dict_divisor (self : DownloadProgress) (d : progress_dict) :
  hook_dict self d ≠ inl Py.ZeroDivisionError
  ∧ (∀ self' out a b,
       hook_dict self d = inr (self', out) → TrueDiv a b ∈ out → 0 < b).
Proof.
  unfold hook_dict.
  destruct (decide (dict_status d = "downloading")).
  - destruct (dict_total d) as [|total]; [by split|].
    destruct (decide (0 < total)) as [Ht|Ht].
    + destruct (default (PyInt 0) (dict_downloaded_bytes d)) as [|downloaded];
        [by split|].
      pose proof (percent_of_divisor downloaded total ltac:(lia)) as Hp.
      destruct (percent_of downloaded total) as [ex|p];
        cbn [mbind Py.result_bind]; [split; [congruence | done]|].
      split; [by destruct (_ && _)|].
      intros self' out a b.
      destruct (_ && _); intros [= <- <-];
        rewrite ?elem_of_cons, elem_of_nil; intros H;
        destruct_or!; try done; by simplify_eq.
    + split; [done|]. intros self' out a b [= <- <-]. by rewrite elem_of_nil.
  - split.
    + destruct (decide (dict_status d = "finished")); [|done].
      by destruct (has_callback self).
    + intros self' out a b.
      destruct (decide (dict_status d = "finished"));
        [destruct (has_callback self)|];
        intros [= <- <-]; rewrite ?elem_of_cons, elem_of_nil; intros H;
        destruct_or!; done.
Qed.

(** C10, on the code: on a "downloading" event whose [total_bytes] is
    missing, [None] or zero and whose [total_bytes_estimate] is missing or
    zero, the hook returns normally, leaves the object as it was, and
    neither calls back nor divides; and on no event at all does it raise
    [ZeroDivisionError] or divide by anything but a positive total.  But
    where [total_bytes_estimate] holds [None], the value the engine
    documents for a guess that is not available, the comparison
    [total > 0] raises [TypeError]: the hook is not total. *)
Theorem hook_never_divides_by_zero (self : DownloadProgress)
    (d : progress_dict) :
  let no_total :=
    dict_total_bytes d = None ∨ dict_total_bytes d = Some PyNone
    ∨ dict_total_bytes d = Some (PyInt 0) in
  (dict_status d = "downloading" → no_total →
   dict_total_bytes_estimate d = None
   ∨ dict_total_bytes_estimate d = Some (PyInt 0) →
   hook_dict self d = inr (self, []))
  ∧ (dict_status d = "downloading" → no_total →
     dict_total_bytes_estimate d = Some PyNone →
     hook_dict self d = inl Py.TypeError)
  ∧ hook_dict self d ≠ inl Py.ZeroDivisionError
  ∧ (∀ self' out a b,
       hook_dict self d = inr (self', out) → TrueDiv a b ∈ out → 0 < b).
Proof.
  intros no_total. subst no_total.
  split_and!; [| |apply hook_dict_divisor..].
  - intros Hs Ht He. unfold hook_dict, dict_total. rewrite decide_True by done.
    by destruct Ht as [->|[->| ->]], He as [->| ->].
  - intros Hs Ht He. unfold hook_dict, dict_total. rewrite decide_True by done.
    rewrite He. by destruct Ht as [->|[->| ->]].
Qed.

End HookFacts.

(** ** Format selection *)

Section FormatFacts.

Import Downloader.

Lemma format_chain_renders quality :
  quality ∈ ["best"; "720p"; "480p"] →
  render_chain (format_chain quality) = format_for quality.
Proof.
  intros Hq. repeat (apply elem_of_cons in Hq as [->|Hq]); [..|by inversion Hq].
  all: vm_compute; reflexivity.
Qed.

Lemma format_for_default quality :
  quality ≠ "best" → quality ≠ "720p" → quality ≠ "480p" →
  format_for quality = format_for "best".
Proof.
  intros H1 H2 H3.
  assert (format_map !! quality = None) as Hnone.
  { unfold format_map.
    by rewrite !lookup_insert_ne, lookup_singleton_ne by congruence. }
  unfold format_for. rewrite Hnone. reflexivity.
Qed.

(** The re-encode step runs no engine. *)
Lemma normalize_codec_requests ffmpeg vcodec (final_path : Path) (w : world) :
  requests (normalize_codec ffmpeg vcodec final_path w).2 = requests w.
Proof.
  unfold normalize_codec.
  destruct (_ && _); [|done].
  unfold run_ffmpeg, unlink, rename, update_fs, raise,
    mbind, Job_bind, mret, Job_ret.
  destruct (ffmpeg _) as [returncode [c|]]; cbn [snd fs seen requests];
    (destruct (decide (returncode = 0)%Z); [|done]); cbn [fs seen requests];
    repeat (match goal with
            | |- context [match ?m !! ?k with _ => _ end] =>
                destruct (m !! k); cbn [fs seen requests]
            end);
    done.
Qed.

(** C9: a quality that is none of "best", "720p" and "480p" gets the
    selector expression of "best".  [download_video] runs the engine
    once, on the URL with that expression as its [format] option, and
    goes on exactly as for "best", with no check of the argument: when
    the engine raises, that is the error of the job, and when the engine
    comes back with an H.264 file (or no codec tag) the job returns its
    path. *)
Theorem download_video_unknown_quality (quality : string) :
  quality ≠ "best" → quality ≠ "720p" → quality ≠ "480p" →
  let best :=
    "bestvideo[vcodec^=avc1]+bestaudio[acodec^=mp4a]/bestvideo[vcodec^=avc1]+bestaudio/best[vcodec^=avc1]/best" in
  format_for quality = format_for "best"
  ∧ format_for quality = best
  ∧ ∀ engine_download ffmpeg url w,
      let job := download_video engine_download ffmpeg url quality w in
      requests job.2 = (url, best) :: requests w
      ∧ job = download_video engine_download ffmpeg url "best" w
      ∧ (∀ (e : Py.exn) (fs1 : files),
           engine_download url best (fs w) = (inl e, fs1) → job.1 = inl e)
      ∧ (∀ (vcodec : string) (filename : Path) (fs1 : files),
           engine_download url best (fs w) = (inr (vcodec, filename), fs1) →
           vcodec = EmptyString ∨ String.prefix "avc" vcodec = true →
           job.1 = inr (if bool_decide (is_Some (fs1 !! path_str filename))
                        then filename else with_suffix ".mp4" filename)
           ∧ fs job.2 = fs1).
Proof.
  intros H1 H2 H3 best.
  pose proof (format_for_default quality H1 H2 H3) as Heq.
  assert (format_for quality = best) as Hbest by (by rewrite Heq).
  split_and!; [done | done |].
  intros engine_download ffmpeg url w job. subst job.
  unfold download_video. rewrite Hbest.
  change (format_for "best") with best.
  unfold extract_info, canonical_path, path_exists, mbind, Job_bind, mret, Job_ret.
  split_and!.
  - destruct (engine_download url best (fs w)) as [[e|[vcodec filename]] fs1];
      [done|]. cbn [fs seen requests].
    by rewrite normalize_codec_requests.
  - done.
  - intros e fs1 ->. done.
  - intros vcodec filename fs1 -> Hcodec. cbn [fs seen requests].
    unfold normalize_codec.
    destruct Hcodec as [->|Havc]; [done|].
    by rewrite Havc, andb_false_r.
Qed.

Lemma select_atom_None a formats :
  select_atom a formats = None ↔ ∀ f, f ∈ formats → atom_admits a f = false.
Proof.
  unfold select_atom. rewrite last_None.
  induction formats as [|f formats IH]; simpl.
  - split; [by intros _ f ?%elem_of_nil | done].
  - destruct (atom_admits a f) eqn:Hf.
    + split; [done|]. intros Hall.
      specialize (Hall f (list_elem_of_here _ _)). congruence.
    + rewrite IH. split.
      * intros Hall g [->|Hg]%elem_of_cons; auto.
      * intros Hall g Hg. apply Hall. by apply elem_of_cons; right.
Qed.

Lemma select_atom_Some a formats f :
  f ∈ formats → atom_admits a f = true → is_Some (select_atom a formats).
Proof.
  intros Hin Hf.
  destruct (select_atom a formats) eqn:Hsel; [by eexists|].
  rewrite select_atom_None in Hsel. specialize (Hsel f Hin). congruence.
Qed.

Lemma last_selector_admits quality f :
  atom_admits (Atom Best match tier_height quality with
                         | Some h => [HeightLe h]
                         | None => []
                         end) f
  = has_video f && has_audio f && within_tier quality f.
Proof.
  unfold atom_admits, within_tier. simpl.
  destruct (tier_height quality); simpl; by rewrite andb_true_r.
Qed.

Lemma select_chain_last c s formats :
  is_Some (select_selector s formats) →
  is_Some (select_chain (c ++ [s]) formats).
Proof.
  intros Hs. induction c as [|s' c IH]; simpl.
  - destruct Hs as [x ->]. by eexists.
  - destruct (select_selector s' formats); [by eexists | done].
Qed.

(** C6, as the code has it: for each tier the expression is the chain
    of four alternatives (H.264 video-only with AAC audio-only, H.264
    video-only with any audio-only, H.264 with both tracks, any codec
    with both tracks), every one within the tier's height bound and "best"
    having none; the engine gets past format selection through the last
    alternative whenever the source offers a format with both tracks
    within the bound, whatever its codec. *)
Theorem format_chain_falls_back (quality : string) (formats : list format)
    (f : format) :
  quality ∈ ["best"; "720p"; "480p"] →
  f ∈ formats → has_video f = true → has_audio f = true →
  within_tier quality f = true →
  render_chain (format_chain quality) = format_for quality
  ∧ is_Some (select_chain (format_chain quality) formats).
Proof.
  intros Hq Hin Hv Ha Ht. split; [by apply format_chain_renders|].
  unfold format_chain.
  match goal with
  | |- is_Some (select_chain [?s1; ?s2; ?s3; ?s4] _) =>
      apply (select_chain_last [s1; s2; s3] s4)
  end.
  cbn [select_selector].
  destruct (select_atom_Some
              (Atom Best match tier_height quality with
                         | Some h => [HeightLe h]
                         | None => []
                         end) formats f Hin) as [g Hg].
  - by rewrite last_selector_admits, Hv, Ha, Ht.
  - rewrite Hg. by eexists.
Qed.

End FormatFacts.

(** ** The re-encode step *)

Section ReencodeFacts.

Import Downloader.

(** The side-by-side output of the re-encode is never the canonical
    path itself. *)
Lemma h264_path_fresh (p : Path) :
  path_str (with_stem (stem p +:+ "_h264") p) ≠ path_str p.
Proof.
  unfold path_str, with_stem. cbn [parent stem suffix].
  rewrite string_app_assoc. intros Heq.
  do 3 apply (inj (String.append _)) in Heq.
  apply (f_equal String.length) in Heq.
  rewrite string_length_app in Heq. simpl in Heq. lia.
Qed.

Variable engine_download :
  string -> string -> files -> Py.result (string * Path) * files.
Variable ffmpeg : option string -> Z * option string.

(** C2: when the downloaded video's codec tag is not empty and does not
    start with "avc", and [ffmpeg] exits with a status other than zero,
    [download_video] raises [CalledProcessError] with that status; the
    file at the canonical path is then what the download left there, and
    so it was in every state the file system went through after the
    download: the re-encode only ever wrote to the "_h264" path. *)
Theorem reencode_failure_keeps_artifact
    (url quality : string) (w : world)
    (vcodec : string) (filename : Path) (fs1 : files)
    (returncode : Z) (out : option string) :
  engine_download url (format_for quality) (fs w) = (inr (vcodec, filename), fs1) →
  vcodec ≠ EmptyString → String.prefix "avc" vcodec = false →
  let final_path :=
    if bool_decide (is_Some (fs1 !! path_str filename)) then filename
    else with_suffix ".mp4" filename in
  ffmpeg (fs1 !! path_str final_path) = (returncode, out) →
  returncode ≠ 0%Z →
  let '(r, w') := download_video engine_download ffmpeg url quality w in
  r = inl (Py.CalledProcessError returncode)
  ∧ fs w' !! path_str final_path = fs1 !! path_str final_path
  ∧ ∃ after : list files,
      seen w' = after ++ fs w :: seen w
      ∧ Forall (fun m => m !! path_str final_path = fs1 !! path_str final_path)
          (fs w' :: after).
Proof.
  intros Hengine Hcodec Havc final_path Hffmpeg Hrc.
  unfold download_video, extract_info, canonical_path, path_exists,
    normalize_codec, run_ffmpeg, raise, mbind, Job_bind, mret, Job_ret.
  rewrite Hengine. cbn [fs seen].
  fold final_path.
  rewrite bool_decide_true by done. rewrite Havc. cbn [negb andb].
  cbn [fs seen]. rewrite Hffmpeg.
  rewrite decide_False by done.
  pose proof (h264_path_fresh final_path) as Hfresh.
  destruct out as [c|]; cbn [update_fs snd fs seen].
  - split_and!; [done | by rewrite lookup_insert_ne |].
    exists [fs1]. split; [done|].
    repeat constructor. by rewrite lookup_insert_ne.
  - split_and!; [done..|].
    exists []. split; [done|]. by repeat constructor.
Qed.

End ReencodeFacts.

(** ** The download handler *)

Section DownloadFacts.

Import Fileserver.

(** [relative_to] raises exactly when [other] is not a prefix of
    [self], the root itself included among the paths it accepts. *)
Lemma relative_to_prefix (self other : path) :
  (∃ rest, relative_to self other = inr rest) ↔ other `prefix_of` self.
Proof.
  revert self. induction other as [|o other IH]; intros self.
  - split; [intros _; apply prefix_nil | intros _; destruct self; by eexists].
  - destruct self as [|c self]; cbn [relative_to].
    + split; [by intros [? ?] | intros H; by apply prefix_nil_not in H].
    + destruct (decide (o = c)) as [->|Hne].
      * rewrite IH. split; [apply prefix_cons | apply prefix_cons_inv_2].
      * split; [by intros [? ?] | intros H; by apply prefix_cons_inv_1 in H].
Qed.

Lemma relative_to_error (self other : path) (e : Py.exn) :
  relative_to self other = inl e → e = Py.ValueError ∧ ¬ other `prefix_of` self.
Proof.
  intros He. split.
  - revert self He. induction other as [|o other IH]; intros self He.
    + by destruct self.
    + destruct self as [|c self]; cbn [relative_to] in He; [congruence|].
      destruct (decide (o = c)); [by eapply IH | congruence].
  - intros Hin. apply relative_to_prefix in Hin as [rest Hrest]. congruence.
Qed.

Variable DOWNLOAD_DIR : path.
Variable os : FileSystem.


End DownloadFacts.

(** ** The listing page *)

Section IndexFacts.

Import Fileserver.

(** Most recent first. *)
Local Abbreviation newer_first :=
  (fun a b : dir_entry => (st_mtime b <= st_mtime a)%Z).

Lemma insert_desc_perm x l : insert_desc x l ≡ₚ x :: l.
Proof.
  induction l as [|y l IH]; cbn [insert_desc]; [done|].
  case_decide; [|done]. rewrite IH. apply Permutation_swap.
Qed.

Lemma sorted_by_mtime_desc_perm l : sorted_by_mtime_desc l ≡ₚ l.
Proof.
  induction l as [|x l IH]; [done|].
  unfold sorted_by_mtime_desc in *. cbn [foldr].
  by rewrite insert_desc_perm, IH.
Qed.

Lemma insert_desc_sorted x l :
  StronglySorted newer_first l → StronglySorted newer_first (insert_desc x l).
Proof.
  induction l as [|y l IH]; cbn [insert_desc]; intros Hs.
  - by repeat constructor.
  - apply StronglySorted_cons in Hs as [Hy Hl].
    case_decide as Hlt.
    + apply StronglySorted_cons. split; [|by apply IH].
      rewrite insert_desc_perm. constructor; [lia | done].
    + apply StronglySorted_cons. split.
      * constructor; [lia|].
        eapply Forall_impl; [exact Hy|]. intros z Hz. simpl in *. lia.
      * by apply StronglySorted_cons.
Qed.

Lemma sorted_by_mtime_desc_sorted l :
  StronglySorted newer_first (sorted_by_mtime_desc l).
Proof.
  induction l as [|x l IH]; [constructor|].
  by apply insert_desc_sorted.
Qed.

Lemma StronglySorted_sublist {A} (R : relation A) (l1 l2 : list A) :
  l1 `sublist_of` l2 → StronglySorted R l2 → StronglySorted R l1.
Proof.
  induction 1 as [|x l1 l2 Hsub IH|x l1 l2 Hsub IH]; intros Hs.
  - done.
  - apply StronglySorted_cons in Hs as [Hx Hl].
    apply StronglySorted_cons. split; [|by apply IH].
    rewrite Forall_forall in Hx |- *. intros y Hy. apply Hx.
    by eapply elem_of_sublist.
  - apply StronglySorted_cons in Hs as [_ Hl]. by apply IH.
Qed.

Lemma bool_filter_sublist {A} (p : A → bool) (l : list A) :
  List.filter p l `sublist_of` l.
Proof.
  induction l as [|x l IH]; cbn [List.filter]; [constructor|].
  destruct (p x); by constructor.
Qed.

Lemma listed_sublist entries :
  listed entries `sublist_of` sorted_by_mtime_desc entries.
Proof.
  unfold listed. etransitivity; [apply bool_filter_sublist | apply sublist_take].
Qed.

(** The item of a file as the page shows it. *)
Local Abbreviation item := (fun f : dir_entry => list_item (quote (name f)) f).

(** Once an exception is on its way the loop does nothing more. *)
Lemma index_loop_raised (e : Py.exn) (l : list dir_entry) :
  foldl index_step (inl e) l = inl e.
Proof. induction l as [|f l IH]; [done | exact IH]. Qed.

Lemma index_step_eq html (f : dir_entry) :
  index_step (inr html) f
  = if entry_is_file f then
      if utf8_valid (name f) then inr (html +:+ item f)
      else inl Py.UnicodeEncodeError
    else inr html.
Proof.
  unfold index_step, quote_name. cbn [mbind Py.result_bind].
  destruct (entry_is_file f); [|done]. by destruct (utf8_valid (name f)).
Qed.

(** The loop of [handle_index] appends one item per regular file, as
    long as [quote] takes the names. *)
Lemma index_loop html (l : list dir_entry) :
  Forall (fun f => utf8_valid (name f) = true) (List.filter entry_is_file l) →
  foldl index_step (inr html) l
  = inr (html +:+ String.concat EmptyString
                    (map item (List.filter entry_is_file l))).
Proof.
  revert html. induction l as [|f l IH]; intros html Hvalid;
    cbn [foldl List.filter] in *.
  - by rewrite string_app_nil_r.
  - rewrite index_step_eq. destruct (entry_is_file f); [|by apply IH].
    apply Forall_cons in Hvalid as [Hf Hl]. rewrite Hf, (IH _ Hl).
    cbn [map]. by rewrite string_concat_cons, string_app_assoc.
Qed.

(** It stops at the first regular file whose name [quote] refuses. *)
Lemma index_loop_refused html (l : list dir_entry) :
  List.Exists (fun f => utf8_valid (name f) = false)
    (List.filter entry_is_file l) →
  foldl index_step (inr html) l = inl Py.UnicodeEncodeError.
Proof.
  revert html. induction l as [|f l IH]; intros html Hbad;
    cbn [foldl List.filter] in *.
  - by apply Exists_nil in Hbad.
  - rewrite index_step_eq. destruct (entry_is_file f); [|by apply IH].
    destruct (utf8_valid (name f)) eqn:Hf; [|apply index_loop_raised].
    apply IH. apply Exists_cons in Hbad as [Hbad|Hbad]; [congruence | done].
Qed.

Lemma stat_all_entries (files : list dir_entry) :
  stat_all (map Entry files) = inr files.
Proof.
  induction files as [|f files IH]; [done|].
  cbn [map stat_all stat mbind Py.result_bind]. by rewrite IH.
Qed.

(** [sorted] raises what the first failing [stat] raises. *)
Lemma stat_all_broken (files : list dir_entry) name e (after : list glob_entry) :
  stat_all (map Entry files ++ Broken name e :: after) = inl e.
Proof.
  induction files as [|f files IH]; [done|].
  cbn [map app stat_all stat mbind Py.result_bind]. by rewrite IH.
Qed.

Lemma handle_index_page (files : list dir_entry) :
  Forall (fun f => utf8_valid (name f) = true) (listed files) →
  handle_index (map Entry files) = inr (index_page (listed files)).
Proof.
  intros Hvalid. unfold handle_index, index_page, listed in *.
  rewrite stat_all_entries. cbn [mbind Py.result_bind].
  by rewrite index_loop.
Qed.

(** An insertion into a list of regular files commutes with nothing to
    filter out. *)
Lemma filter_all_files (l : list dir_entry) :
  Forall (fun f => entry_is_file f = true) l → List.filter entry_is_file l = l.
Proof.
  induction 1 as [|f l Hf Hl IH]; cbn [List.filter]; [done|].
  by rewrite Hf, IH.
Qed.

(** *** What an item shows *)

Lemma tenths_of_nearest m e :
  (e < 0)%Z →
  (0 <= tenths_of m e)%Z
  ∧ (- 2 ^ (- e) <= 2 * (10 * Z.pos m - tenths_of m e * 2 ^ (- e)) <= 2 ^ (- e))%Z.
Proof.
  intros He. unfold tenths_of. rewrite decide_False by lia.
  rewrite Z.shiftl_1_l.
  assert (0 < 2 ^ (- e))%Z as Hd by (apply Z.pow_pos_nonneg; lia).
  pose proof (Z.div_mod (10 * Z.pos m) (2 ^ (- e)) ltac:(lia)) as Hdiv.
  pose proof (Z.mod_pos_bound (10 * Z.pos m) (2 ^ (- e)) Hd) as Hr.
  assert (0 <= 10 * Z.pos m / 2 ^ (- e))%Z as Hq by (apply Z.div_pos; lia).
  destruct (Z.compare_spec (2 * ((10 * Z.pos m) mod 2 ^ (- e))) (2 ^ (- e)))
    as [Heq|Hlt|Hgt]; [destruct (Z.even _)|..]; nia.
Qed.

(** The size shown has one digit after the point and is the multiple of
    a tenth of a MiB nearest to the size. *)
Lemma size_mb_text_nearest size :
  (0 <= size < 2 ^ 53)%Z →
  ∃ t : Z,
    (0 <= t)%Z
    ∧ size_mb_text size
      = Py.str_of_int (t / 10) +:+ "." +:+ Py.str_of_int (t mod 10)
    ∧ (- 2 ^ 19 <= 10 * size - 2 ^ 20 * t <= 2 ^ 19)%Z.
Proof.
  intros Hsize. destruct (Z.eq_dec size 0%Z) as [->|Hne].
  - exists 0%Z. split; [lia|]. split; [reflexivity | lia].
  - destruct (truediv_mib size ltac:(lia)) as (x & Hx & Hbetween).
    unfold size_mb_text. rewrite Hx.
    destruct x as [s| | |s m e]; cbn [Py.float_between] in Hbetween;
      try done.
    destruct Hbetween as (-> & He & Hm).
    cbn [format_1f].
    destruct (tenths_of_nearest m e ltac:(lia)) as [Ht Hnear].
    exists (tenths_of m e). split; [done|]. split; [reflexivity|].
    assert (2 ^ (- e) = 2 ^ 20 * 2 ^ (-20 - e))%Z as Hpow
      by (rewrite <- Z.pow_add_r by lia; f_equal; lia).
    assert (0 < 2 ^ (-20 - e))%Z as Hw by (apply Z.pow_pos_nonneg; lia).
    rewrite Hpow in Hnear.
    change (2 ^ 20)%Z with 1048576%Z in *. change (2 ^ 19)%Z with 524288%Z.
    nia.
Qed.

Lemma list_ascii_app (s t : string) :
  list_ascii_of_string (s +:+ t)
  = list_ascii_of_string s ++ list_ascii_of_string t.
Proof.
  induction s as [|c s IH]; [done|].
  rewrite string_app_cons. cbn [list_ascii_of_string app]. by rewrite IH.
Qed.

(** No angle bracket survives [escape]. *)
Lemma escape_no_angle (s : string) :
  Forall (fun c => c ≠ "<"%char ∧ c ≠ ">"%char)
    (list_ascii_of_string (escape s)).
Proof.
  induction s as [|c s IH]; [constructor|].
  cbn [escape]. rewrite list_ascii_app. apply Forall_app. split; [|done].
  destruct (Ascii.eqb c "&") eqn:Hamp; [by repeat constructor|].
  destruct (Ascii.eqb c ">") eqn:Hgt; [by repeat constructor|].
  destruct (Ascii.eqb c "<") eqn:Hlt; [by repeat constructor|].
  apply Ascii.eqb_neq in Hgt, Hlt. by repeat constructor.
Qed.


End IndexFacts.

(** * The properties on the sample data *)

Section Instances.

Import Downloader Fileserver.



(** C2 on a job whose re-encode fails: the VP9 file is still there. *)
Lemma reencode_failure_keeps_artifact_witness :
  let final_path :=
    if bool_decide (is_Some (Sample.downloaded !! path_str Sample.clip))
    then Sample.clip else with_suffix ".mp4" Sample.clip in
  (String.prefix "avc" "vp9" = false ∧ 1 ≠ 0)%Z
  ∧ let '(r, w') :=
      download_video Sample.engine Sample.failing_ffmpeg
        "https://youtu.be/abc123" "720p" Sample.empty_world in
    r = inl (Py.CalledProcessError 1)
    ∧ fs w' !! path_str final_path = Sample.downloaded !! path_str final_path
    ∧ ∃ after : list files,
        seen w' = after ++ fs Sample.empty_world :: seen Sample.empty_world
        ∧ Forall (fun m => m !! path_str final_path
                           = Sample.downloaded !! path_str final_path)
            (fs w' :: after).
Proof.
  intros final_path. split; [split; [reflexivity | lia]|].
  apply (reencode_failure_keeps_artifact
           Sample.engine Sample.failing_ffmpeg
           "https://youtu.be/abc123" "720p" Sample.empty_world
           "vp9" Sample.clip Sample.downloaded 1%Z (Some "PARTIAL H264"));
    [reflexivity | discriminate | reflexivity | reflexivity | lia].
Defined.

(** C3 fails as stated: two links share the first ten digits of their
    MD5 digest, so after both are stored, with no eviction in between, the
    key of the first gives back the second. *)
Lemma get_store_url_collision :
  let put := Bot._store_url Hashlib.md5_hexdigest in
  let store := (put [] "https://youtu.be/T7zMAgdBQJL").1 in
  let key := (put [] "https://youtu.be/T7zMAgdBQJL").2 in
  key = "aa36106725"
  ∧ Bot.evicts Hashlib.md5_hexdigest store ["https://youtu.be/qRfwo31iZCn"]
    = false
  ∧ Bot._get_url (put store "https://youtu.be/qRfwo31iZCn").1 key
    = Some "https://youtu.be/qRfwo31iZCn".
Proof. split_and!; by vm_compute. Qed.

(** C3, amended, on two links stored one after the other. *)
Lemma get_store_url_roundtrip_witness :
  let put := Bot._store_url Hashlib.md5_hexdigest in
  let store := (put [] "https://youtu.be/abc123").1 in
  let key := (put [] "https://youtu.be/abc123").2 in
  let later := ["https://youtu.be/T7zMAgdBQJL"; "https://youtu.be/abc123"] in
  (Bot.evicts Hashlib.md5_hexdigest store later = false
   ∧ Forall (fun url2 => (put store url2).2 = key
                         → url2 = "https://youtu.be/abc123") later)
  ∧ Bot._get_url (Bot.stores_from Hashlib.md5_hexdigest store later) key
    = Some "https://youtu.be/abc123".
Proof.
  intros put store key later.
  assert (Bot.evicts Hashlib.md5_hexdigest store later = false) as Hroom
    by (by vm_compute).
  assert (Forall (fun url2 => (put store url2).2 = key
                              → url2 = "https://youtu.be/abc123") later)
    as Hkeys.
  { constructor; [|constructor; [done | constructor]].
    intros Hkey. vm_compute in Hkey. discriminate. }
  split; [by split|].
  exact (proj1 (proj2 (proj2 (proj2 (proj2 (proj2
           (get_store_url_roundtrip Hashlib.md5_hexdigest []
              "https://youtu.be/abc123")))))) later Hroom Hkeys).
Defined.

(** C4 on a full store: after 100 distinct URLs the next call drops the
    50 oldest. *)
Lemma store_bounded_and_evicts_oldest_half_witness :
  let store := Bot.stores_after Sample.digest (Sample.urls 100) in
  100 <= length store
  ∧ (Bot._store_url Sample.digest store "https://youtu.be/abc123").1
    = PyDict.set
        (Bot._store_url Sample.digest store "https://youtu.be/abc123").2
        "https://youtu.be/abc123" (drop (length store / 2) store).
Proof.
  intros store.
  assert (100 <= length store) as Hfull by (vm_compute; lia).
  split; [exact Hfull|].
  exact (proj1 (proj2 (proj2 (store_bounded_and_evicts_oldest_half
                                Sample.digest)
                         (Sample.urls 100) "https://youtu.be/abc123" Hfull))).
Defined.

(** C5 on a run that reaches 100. *)
Lemma update_progress_throttles_witness :
  Forall (fun x => x < 100)%Z [0; 0; 40; 40; 99]%Z
  ∧ Bot.update_progress ([0; 0; 40; 40; 99] ++ 100 :: [100; 37])%Z
    = Bot.update_progress [0; 0; 40; 40; 99]%Z
      ++ [Bot.Notify 100 "Processing..."].
Proof.
  assert (Forall (fun x => x < 100)%Z [0; 0; 40; 40; 99]%Z) as Hbelow
    by (repeat constructor; lia).
  split; [exact Hbelow|].
  apply (proj2 (update_progress_throttles
                  ([0; 0; 40; 40; 99] ++ 100 :: [100; 37])%Z)
           [0; 0; 40; 40; 99]%Z [100; 37]%Z 100%Z eq_refl Hbelow).
  lia.
Defined.

(** C6 fails as stated: a source with a VP9 video stream of 720 lines
    and an audio stream, each on its own, selects nothing at any tier,
    though the same source with the video in H.264 does; the last
    alternative of "720p" still carries the height filter. *)
Lemma format_chain_hard_fails :
  select_chain (format_chain "720p") [Sample.vp9_video; Sample.opus_audio] = None
  ∧ select_chain (format_chain "best") [Sample.vp9_video; Sample.opus_audio] = None
  ∧ select_chain (format_chain "720p") [Sample.avc1_video; Sample.opus_audio]
    = Some [Sample.avc1_video; Sample.opus_audio]
  ∧ last (format_chain "720p") = Some (Single (Atom Best [HeightLe 720])).
Proof. by vm_compute. Qed.

(** C6, amended, on a source whose only format with both tracks is
    VP9 at 360 lines. *)
Lemma format_chain_falls_back_witness :
  ("720p" ∈ ["best"; "720p"; "480p"]
   ∧ Sample.vp9_merged ∈ [Sample.vp9_video; Sample.vp9_merged]
   ∧ within_tier "720p" Sample.vp9_merged = true)
  ∧ render_chain (format_chain "720p") = format_for "720p"
  ∧ is_Some (select_chain (format_chain "720p")
               [Sample.vp9_video; Sample.vp9_merged]).
Proof.
  assert ("720p" ∈ ["best"; "720p"; "480p"]) as Hq
    by (apply list_elem_of_further, list_elem_of_here).
  assert (Sample.vp9_merged ∈ [Sample.vp9_video; Sample.vp9_merged]) as Hin
    by (apply list_elem_of_further, list_elem_of_here).
  split; [split_and!; [exact Hq | exact Hin | reflexivity]|].
  apply (format_chain_falls_back "720p" _ Sample.vp9_merged Hq Hin);
    reflexivity.
Defined.

(** C7 fails as stated: with an estimate of 50 bytes and 100 bytes
    fetched the callback gets 200. *)
Lemma hook_percent_above_100 :
  run_hook (DownloadProgress_init true) [Sample.overshoot]
  = inr ({| has_callback := true; last_percent := 200 |},
         [TrueDiv 100 50; Callback 200 "downloading"])
  ∧ ¬ (0 <= 200 <= 100)%Z.
Proof. split; [by vm_compute | lia]. Qed.

(** C7, amended, on a consistent run. *)
Lemma hook_percent_in_range_witness :
  Forall consistent [Sample.halfway; Sample.finished]
  ∧ ∃ self' out,
      run_hook (DownloadProgress_init true) [Sample.halfway; Sample.finished]
      = inr (self', out)
      ∧ Forall (fun p => 0 <= p <= 100)%Z (delivered out).
Proof.
  assert (Forall consistent [Sample.halfway; Sample.finished]) as Hds.
  { constructor; [|constructor; [|constructor]];
      intros Hs Ht; vm_compute; split; discriminate. }
  split; [exact Hds|].
  exact (proj1 (hook_percent_in_range (DownloadProgress_init true) _ Hds)).
Defined.



(** C9 on a quality the table does not have: the engine is run with
    the expression of "best". *)
Lemma download_video_unknown_quality_witness :
  ("1080p" ≠ "best" ∧ "1080p" ≠ "720p" ∧ "1080p" ≠ "480p")
  ∧ requests (download_video Sample.engine Sample.failing_ffmpeg
                "https://youtu.be/abc123" "1080p" Sample.empty_world).2
    = [("https://youtu.be/abc123",
        "bestvideo[vcodec^=avc1]+bestaudio[acodec^=mp4a]/bestvideo[vcodec^=avc1]+bestaudio/best[vcodec^=avc1]/best")].
Proof.
  assert ("1080p" ≠ "best") as H1 by discriminate.
  assert ("1080p" ≠ "720p") as H2 by discriminate.
  assert ("1080p" ≠ "480p") as H3 by discriminate.
  split; [by split_and!|].
  exact (proj1 (proj2 (proj2 (download_video_unknown_quality "1080p" H1 H2 H3))
                  Sample.engine Sample.failing_ffmpeg
                  "https://youtu.be/abc123" Sample.empty_world)).
Defined.

(** C10 on the event the engine sends while nothing is known of the
    size: the hook raises. *)
Lemma hook_never_divides_by_zero_witness :
  hook_dict (DownloadProgress_init true) Sample.unavailable
  = inl Py.TypeError.
Proof.
  apply (proj1 (proj2 (hook_never_divides_by_zero (DownloadProgress_init true)
                         Sample.unavailable)));
    [reflexivity | right; by left | reflexivity].
Defined.

End Instances.


(** * Further properties *)

(** ** Percent-encoding *)

Section QuoteFacts.

Import Fileserver.

(** The two hexadecimal digits [quote] writes for a byte are safe
    characters. *)
Lemma quote_byte (c : ascii) :
  let n := N_of_ascii c in
  always_safe (hex_digit (n / 16)) = true
  ∧ always_safe (hex_digit (n mod 16)) = true.
Proof.
  destruct c as [[] [] [] [] [] [] [] []]; vm_compute; by split.
Qed.

(** A name without a percent sign is its own decoding. *)
Lemma unquote_plain (s : string) :
  Forall (fun c => c ≠ "%"%char) (list_ascii_of_string s) → unquote s = s.
Proof.
  intros Hplain. unfold unquote.
  assert (contains "%" s = false) as ->; [|done].
  induction s as [|c s IH]; [reflexivity|].
  cbn [list_ascii_of_string] in Hplain. apply Forall_cons in Hplain as [Hc Hs].
  cbn [contains]. apply Ascii.eqb_neq in Hc. rewrite Hc. by apply IH.
Qed.

Lemma quote_chars (s : string) :
  Forall (fun c => always_safe c = true ∨ c = "%"%char)
    (list_ascii_of_string (quote s)).
Proof.
  induction s as [|c s IH]; [constructor|].
  destruct (quote_byte c) as (Hh & Hl).
  cbn [quote]. destruct (always_safe c) eqn:Hs; cbn [list_ascii_of_string].
  - constructor; [by left | done].
  - constructor; [by right|].
    constructor; [by left|]. constructor; [by left | done].
Qed.

End QuoteFacts.

(** ** The download handler and its links *)

Section LinkFacts.

Import Fileserver.

Lemma replace_char_chars (old new : ascii) (s : string) :
  list_ascii_of_string (replace_char old new s)
  = map (fun c => if Ascii.eqb c old then new else c) (list_ascii_of_string s).
Proof.
  induction s as [|c s IH]; [reflexivity|].
  cbn [replace_char list_ascii_of_string map]. by rewrite IH.
Qed.

Lemma replace_char_length (old new : ascii) (s : string) :
  String.length (replace_char old new s) = String.length s.
Proof.
  induction s as [|c s IH]; [reflexivity|].
  cbn [replace_char String.length]. by rewrite IH.
Qed.

(** What the three replacements of the handler make of one byte. *)
Lemma sanitized_byte (c : ascii) :
  let c1 := if Ascii.eqb c double_quote then "'"%char else c in
  let c2 := if Ascii.eqb c1 line_feed then " "%char else c1 in
  let c3 := if Ascii.eqb c2 carriage_return then " "%char else c2 in
  c3 ≠ double_quote ∧ c3 ≠ line_feed ∧ c3 ≠ carriage_return.
Proof.
  destruct c as [[] [] [] [] [] [] [] []]; vm_compute; repeat split; discriminate.
Qed.


Lemma split_slash_plain (s : string) :
  Forall (fun c => c ≠ "/"%char) (list_ascii_of_string s) → split_slash s = [s].
Proof.
  induction s as [|c s IH]; [reflexivity|].
  cbn [list_ascii_of_string]. intros [Hc Hs]%Forall_cons.
  cbn [split_slash]. apply Ascii.eqb_neq in Hc. rewrite Hc. by rewrite IH.
Qed.

(** A name without a slash, other than the empty name and [.], is one
    component below the root. *)
Lemma joinpath_plain (root : path) (name : string) :
  Forall (fun c => c ≠ "/"%char) (list_ascii_of_string name) →
  name ≠ EmptyString → name ≠ "." →
  joinpath root name = root ++ [name].
Proof.
  intros Hplain Hne Hdot. unfold joinpath, is_absolute, components.
  rewrite split_slash_plain by done.
  assert (String.prefix "/" name = false) as ->.
  { destruct name as [|c name]; [done|].
    cbn [list_ascii_of_string] in Hplain. apply Forall_cons in Hplain as [Hc _].
    cbn [String.prefix]. destruct (ascii_dec "/" c) as [<-|?]; [done|].
    reflexivity. }
  cbn [List.filter].
  apply String.eqb_neq in Hne, Hdot. by rewrite Hne, Hdot.
Qed.


(** X5: when [resolve] returns the root and the requested path as they
    are (no symbolic link, no [..] and no NUL byte on the way), a
    relative name is never refused, however deep it goes below the root:
    the third question of the handler is whether the path exists, and a
    response, if there is one, is 200 or 404. *)
Theorem nested_name_not_refused (DOWNLOAD_DIR : path) (os : FileSystem)
    (filename : string) :
  let filepath := DOWNLOAD_DIR ++ components (unquote filename) in
  is_absolute (unquote filename) = false →
  resolve os DOWNLOAD_DIR = inr DOWNLOAD_DIR →
  resolve os filepath = inr filepath →
  (∀ r : response,
     (handle_download DOWNLOAD_DIR os filename).1 = inr r →
     status_code r ∈ [200; 404]%Z)
  ∧ (handle_download DOWNLOAD_DIR os filename).2 !! 2 = Some (Exists filepath).
Proof.
  intros filepath Hrel Hroot Hpath.
  unfold handle_download, containment_check, joinpath.
  rewrite Hrel. fold filepath. rewrite Hpath, Hroot.
  destruct (proj2 (relative_to_prefix filepath DOWNLOAD_DIR))
    as [rest ->]; [by apply prefix_app_r|].
  destruct (exists_ os filepath) as [?|[|]];
    [|destruct (is_file os filepath) as [?|[|]];
      [|destruct (quote_name (unquote filename))|]|]; cbn [fst snd app];
    (split; [intros r [= <-]; set_solver || done | done]).
Qed.

End LinkFacts.

(** ** The token store, further *)

Section TokenStoreMore.

Variable md5_hexdigest : string -> string.

Local Abbreviation put := (Bot._store_url md5_hexdigest).

Lemma get_drop {V} (d : PyDict.t V) (n : nat) (k : string) :
  k ∉ take n (PyDict.keys d) → PyDict.get k (drop n d) = PyDict.get k d.
Proof.
  revert d. induction n as [|n IH]; intros [|[k' v] d]; try done.
  rewrite keys_cons. cbn [take drop PyDict.get].
  intros [Hne Hnot]%not_elem_of_cons.
  destruct (decide (k = k')); [done | by apply IH].
Qed.

(** X6: a call that finds fewer than 100 entries loses nothing: every
    other key keeps its URL, a key that is already there stays where it
    stands in the insertion order (its age is not refreshed), and a new
    key goes to the end. *)
Theorem store_url_below_capacity (store : PyDict.t string) (url : string) :
  length store < 100 →
  let store' := (put store url).1 in
  let key := (put store url).2 in
  (∀ k : string, k ≠ key → Bot._get_url store' k = Bot._get_url store k)
  ∧ (key ∈ PyDict.keys store → PyDict.keys store' = PyDict.keys store)
  ∧ (key ∉ PyDict.keys store → PyDict.keys store' = PyDict.keys store ++ [key]).
Proof.
  intros Hroom. rewrite put_eq. cbn [fst snd].
  rewrite decide_False by lia. unfold Bot._get_url. split_and!.
  - intros k Hne. by rewrite get_set_ne.
  - apply keys_set_old.
  - apply keys_set_new.
Qed.

(** X7: a call that finds the store full keeps every entry outside the
    oldest half: such a key, unless it is the new one, still gives the
    URL it gave before.  What is left is the newer half and the new
    entry: of [n] entries at most [n - n / 2 + 1] remain, 51 of 100. *)
Theorem store_url_keeps_newest_half (store : PyDict.t string) (url : string) :
  100 <= length store →
  (∀ k : string,
     k ∉ take (length store / 2) (PyDict.keys store) → k ≠ (put store url).2 →
     Bot._get_url (put store url).1 k = Bot._get_url store k)
  ∧ length (put store url).1 <= length store - length store / 2 + 1
  ∧ (length store = 100 → length (put store url).1 <= 51).
Proof.
  intros Hfull.
  assert (length (put store url).1 <= length store - length store / 2 + 1)
    as Hlen.
  { rewrite put_eq. cbn [fst snd]. rewrite decide_True by done.
    etransitivity; [apply length_set_le|]. rewrite length_drop. lia. }
  split_and!; [|done|].
  - intros k Hk Hne. rewrite put_eq in Hne |- *. cbn [fst snd] in *.
    rewrite decide_True by done. unfold Bot._get_url.
    rewrite get_set_ne by done. by apply get_drop.
  - intros H100. rewrite H100 in Hlen. by change (100 / 2) with 50 in Hlen.
Qed.

Lemma split_once_plain (sep : ascii) (s : string) :
  Forall (fun c => c ≠ sep) (list_ascii_of_string s) → Bot.split_once sep s = [s].
Proof.
  induction s as [|c s IH]; [reflexivity|].
  cbn [list_ascii_of_string]. intros [Hc Hs]%Forall_cons.
  cbn [Bot.split_once]. apply Ascii.eqb_neq in Hc. rewrite Hc. by rewrite IH.
Qed.

Lemma split_once_first (sep : ascii) (s t : string) :
  Forall (fun c => c ≠ sep) (list_ascii_of_string s) →
  Bot.split_once sep (s +:+ String sep t) = [s; t].
Proof.
  induction s as [|c s IH].
  - intros _. change (EmptyString +:+ String sep t) with (String sep t).
    cbn [Bot.split_once]. by rewrite Ascii.eqb_refl.
  - cbn [list_ascii_of_string]. intros [Hc Hs]%Forall_cons.
    rewrite string_app_cons. cbn [Bot.split_once].
    apply Ascii.eqb_neq in Hc. rewrite Hc. by rewrite IH.
Qed.

Lemma substring_length_le (n : nat) (s : string) :
  String.length (substring 0 n s) <= n.
Proof.
  revert s. induction n as [|n IH]; intros [|c s]; cbn; try lia.
  specialize (IH s). lia.
Qed.

Lemma with_scheme_nonempty (url : string) : Bot.with_scheme url ≠ EmptyString.
Proof.
  unfold Bot.with_scheme. destruct (String.prefix "http" url) eqn:Hp; [|done].
  intros ->. discriminate.
Qed.

(** The four qualities of the buttons. *)
Local Abbreviation qualities := ["best"; "720p"; "480p"; "audio"].

Lemma qualities_plain (quality : string) :
  quality ∈ qualities →
  Forall (fun c => c ≠ "|"%char) (list_ascii_of_string quality)
  ∧ String.length quality <= 5.
Proof.
  intros Hq. repeat (apply elem_of_cons in Hq as [->|Hq]);
    [..|by apply elem_of_nil in Hq];
    (split; [repeat constructor; discriminate | cbn; lia]).
Qed.

(** X8: a button pressed right after [handle_message] made it starts the
    right job: the data of each of the four buttons is at most 16 bytes
    (under the 64 the callback allows), and [handle_callback] reads it back
    to the URL that was stored, audio for the audio button and the video
    job with that quality otherwise, never "expired". *)
Theorem button_round_trip (store : PyDict.t string) (raw quality : string) :
  quality ∈ qualities →
  let url := Bot.with_scheme raw in
  let store' := (put store url).1 in
  let data := Bot.callback_data quality (put store url).2 in
  String.length data <= 16
  ∧ Bot.handle_callback store' data
    = inr (if decide (quality = "audio") then Bot.DownloadAudio url
           else Bot.DownloadVideo url quality).
Proof.
  intros Hq url store' data.
  destruct (qualities_plain quality Hq) as [Hplain Hlen].
  subst data store'. rewrite put_eq. cbn [fst snd]. split.
  - unfold Bot.callback_data. rewrite !string_length_app.
    pose proof (substring_length_le 10 (md5_hexdigest url)). cbn. lia.
  - unfold Bot.handle_callback, Bot.callback_data.
    change ("|" +:+ ?k) with (String "|" k).
    rewrite split_once_first by done.
    rewrite get_set_eq.
    rewrite decide_False by apply with_scheme_nonempty.
    by destruct (decide (quality = "audio")).
Qed.

(** X9: a button whose key has been evicted is answered "Link expired":
    after a call that found the store full (100 entries, from the empty
    store), any button carrying one of the 50 oldest keys, other than the
    new key, starts no job. *)
Theorem evicted_button_expired (urls : list string) (url quality k : string) :
  let store := Bot.stores_after md5_hexdigest urls in
  100 <= length store →
  quality ∈ qualities →
  k ∈ take 50 (PyDict.keys store) → k ≠ (put store url).2 →
  Bot.handle_callback (put store url).1 (Bot.callback_data quality k)
  = inr Bot.LinkExpired.
Proof.
  intros store Hfull Hq Hk Hne.
  destruct (stores_after_invariant md5_hexdigest urls) as [Hle Hwf].
  fold store in Hle, Hwf.
  destruct (qualities_plain quality Hq) as [Hplain _].
  unfold Bot.handle_callback, Bot.callback_data.
  change ("|" +:+ ?x) with (String "|" x).
  rewrite split_once_first by done.
  rewrite put_eq in Hne |- *. cbn [fst snd] in *.
  rewrite decide_True by done.
  assert (length store = 100) as Hlen by lia.
  rewrite Hlen. change (100 / 2) with 50.
  rewrite get_set_ne by done.
  rewrite get_None_not_key; [done|].
  unfold PyDict.wf, PyDict.keys in *.
  rewrite <- (take_drop 50 store), map_app in Hwf.
  apply NoDup_app in Hwf as (_ & Hdisj & _).
  change (map fst store) with (fst <$> store) in Hk.
  rewrite <- fmap_take in Hk. by apply Hdisj.
Qed.

(** X10: data without a [|] cannot be unpacked into quality and key:
    [handle_callback] raises [ValueError] before it looks anything up. *)
Theorem malformed_button_raises (store : PyDict.t string) (data : string) :
  Forall (fun c => c ≠ "|"%char) (list_ascii_of_string data) →
  Bot.handle_callback store data = inl Py.ValueError.
Proof.
  intros Hplain. unfold Bot.handle_callback.
  by rewrite split_once_plain.
Qed.

End TokenStoreMore.

(** ** The progress throttler, further *)

Section ThrottlerMore.

Import Bot.

Lemma update_progress_from_bounds last_shown samples :
  length (update_progress_from last_shown samples) <= length samples
  ∧ Forall (fun n => shown_percent n ∈ samples
                     ∧ shown_text n = progress_text (shown_percent n))
      (update_progress_from last_shown samples).
Proof.
  revert last_shown. induction samples as [|x samples IH]; intros last_shown.
  - split; [done | constructor].
  - cbn [update_progress_from].
    assert (∀ l, Forall (fun n => shown_percent n ∈ samples
                          ∧ shown_text n = progress_text (shown_percent n)) l →
                 Forall (fun n => shown_percent n ∈ x :: samples
                          ∧ shown_text n = progress_text (shown_percent n)) l)
      as Hweaken.
    { intros l Hl. eapply Forall_impl; [exact Hl|].
      intros n [? ?]. split; [|done]. by apply list_elem_of_further. }
    destruct (decide (100 <= x)%Z); case_bool_decide;
      cbn [app length]; rewrite ?app_nil_r.
    + split; [lia|]. repeat constructor.
    + split; [lia | constructor].
    + destruct (IH x) as [Hlen Hall]. split; [lia|].
      constructor; [split; [constructor | done] | by apply Hweaken].
    + destruct (IH last_shown) as [Hlen Hall]. split; [lia | by apply Hweaken].
Qed.

(** While the job goes on, the message ends on the value read last. *)
Lemma update_progress_from_latest last_shown samples :
  Forall (fun x => x < 100)%Z samples →
  let final := List.last samples last_shown in
  (update_progress_from last_shown samples = [] ∧ final = last_shown)
  ∨ (∃ earlier, update_progress_from last_shown samples
                = earlier ++ [Notify final (progress_text final)]).
Proof.
  intros Hall. revert last_shown.
  induction Hall as [|x samples Hx Hall IH]; intros last_shown.
  - left. by split.
  - cbn [update_progress_from]. destruct (decide (100 <= x)%Z); [lia|].
    assert (∀ d, List.last (x :: samples) d = List.last samples x) as Hlast.
    { intros d. clear. revert x d. induction samples as [|y l IH]; intros x d.
      - reflexivity.
      - change (List.last (x :: y :: l) d) with (List.last (y :: l) d).
        by rewrite !IH. }
    cbv zeta. rewrite Hlast.
    case_bool_decide as Hshow.
    + right. destruct (IH x) as [[-> ->]|[earlier ->]].
      * by exists [].
      * by exists (Notify x (progress_text x) :: earlier).
    + subst x.
      destruct (IH last_shown) as [[-> ->]|[earlier ->]].
      * left. by split.
      * right. by exists earlier.
Qed.

(** Nothing is shown only while the values read repeat the one the loop
    starts from. *)
Lemma update_progress_from_silent last_shown samples :
  Forall (fun x => x < 100)%Z samples →
  update_progress_from last_shown samples = [] →
  Forall (fun x => x = last_shown) samples.
Proof.
  intros Hall. revert last_shown.
  induction Hall as [|x samples Hx Hall IH]; intros last_shown; [done|].
  cbn [update_progress_from]. destruct (decide (100 <= x)%Z); [lia|].
  case_bool_decide as Hshow; [done|]. subst x. cbn [app].
  intros Hnil. constructor; [done | by apply IH].
Qed.

(** X11: the loop calls the observer at most once per wake-up, only with
    values it has read, and with the text of that value; and as long as
    every value read is below 100, the call made last shows the value
    read last ("Downloading... v%"), so the message is never left behind
    on an older value.  The one exception is a run in which nothing is
    shown at all, and that is a run in which every value read was -1, the
    value [last_shown] starts from. *)
Theorem update_progress_shows_latest (samples : list Z) :
  length (update_progress samples) <= length samples
  ∧ Forall (fun n => shown_percent n ∈ samples
                     ∧ shown_text n = progress_text (shown_percent n))
      (update_progress samples)
  ∧ (Forall (fun x => x < 100)%Z samples →
     (∀ v : Z,
        last samples = Some v →
        (update_progress samples = [] ∧ v = (-1)%Z)
        ∨ last (update_progress samples)
          = Some (Notify v ("Downloading... " +:+ Py.str_of_int v +:+ "%")))
     ∧ (update_progress samples = [] →
        Forall (fun x => x = (-1)%Z) samples)).
Proof.
  destruct (update_progress_from_bounds (-1) samples) as [Hlen Hall].
  split_and!; [done | done |].
  intros Hbelow. split; [|by apply update_progress_from_silent].
  intros v Hlast.
  assert (List.last samples (-1)%Z = v) as Hv.
  { clear -Hlast. revert Hlast.
    induction samples as [|x [|y l] IH]; intros Hlast.
    - done.
    - by injection Hlast.
    - change (List.last (x :: y :: l) (-1)%Z) with (List.last (y :: l) (-1)%Z).
      apply IH. exact Hlast. }
  assert (v < 100)%Z as Hin.
  { apply last_Some_elem_of in Hlast.
    rewrite Forall_forall in Hbelow. by apply Hbelow. }
  destruct (update_progress_from_latest (-1) samples Hbelow)
    as [[Hnil Heq]|[earlier Heq]].
  - left. cbv zeta in Heq. rewrite Hv in Heq. by split.
  - right. unfold update_progress. cbv zeta in Heq. rewrite Heq, Hv, last_snoc.
    unfold progress_text. by rewrite decide_True by lia.
Qed.

End ThrottlerMore.

(** ** The progress hook, further *)

Section HookMore.

Import Py Downloader.
Local Open Scope Z_scope.

(** [a / a] is exactly one. *)
Lemma truediv_self a :
  0 < a → ∃ x, truediv a a = inr x ∧ float_between 1 1 0 x.
Proof.
  intros Ha. unfold truediv.
  rewrite (proj2 (Z.eqb_neq a 0)) by lia.
  rewrite (proj2 (Z.ltb_ge a 0)) by lia.
  rewrite !Z.abs_eq by lia. cbn [xorb].
  pose proof (div_core_spec a a Ha Ha) as Hcore.
  destruct (SFdiv_core_binary prec emax a 0 a 0) as [[q e] l].
  destruct Hcore as (He & r & Hr & Heq & Hl).
  assert (e <= 0) as He0 by lia.
  assert (0 < 2 ^ (- e)) as Hpow by (apply Z.pow_pos_nonneg; lia).
  assert (q = 2 ^ (- e) ∧ r = 0) as [-> ->].
  { set (P := 2 ^ (- e)) in *.
    assert (a * (P - q) = r) as Hdiff by lia.
    assert (P - q = 0) by nia. lia. }
  assert (scaled 1 1 0 e (shr_record_of_loc (2 ^ (- e)) l)) as Hscaled.
  { unfold scaled, between. rewrite shr_m_of_loc.
    rewrite Z.mul_1_l, Z.sub_0_l. split; [lia|].
    rewrite Hl, new_location_zero. done. }
  pose proof (binary_round_aux_scaled 1 1 0 _ e l
                ltac:(lia) ltac:(lia) ltac:(lia) He0 Hscaled) as Hround.
  change 53 with prec in Hround. change 1024 with emax in Hround.
  destruct (binary_round_aux prec emax false _ e l) as [s| | |s m e'];
    try done; by eexists.
Qed.

Lemma mul_100_exact x :
  float_between 1 1 0 x → float_between 25 25 2 (mul_int x 100).
Proof.
  unfold mul_int. rewrite float_of_int_100.
  destruct x as [s| | |s m e]; cbn [float_between SFmul]; try done.
  intros (-> & He & Hm). cbn [xorb].
  rewrite Z.mul_1_l, Z.sub_0_l in Hm.
  assert (0 < 2 ^ (- e)) by (apply Z.pow_pos_nonneg; lia).
  apply (binary_round_aux_scaled 25 25 2); try lia.
  unfold scaled, between. cbn [shr_record_of_loc shr_m inexact shr_r shr_s orb].
  replace (2 - (e + -46)) with (48 + - e) by lia.
  rewrite Z.pow_add_r by lia. rewrite Pos2Z.inj_mul.
  split; [|done]. change (Z.pos (25 * 2 ^ 48)) with (25 * 2 ^ 48). nia.
Qed.

Lemma int_of_float_exact x :
  float_between 25 25 2 x → int_of_float x = inr 100.
Proof.
  destruct x as [s| | |s m e]; cbn [float_between int_of_float]; try done.
  intros (-> & He & Hm). f_equal. cbn [cond_Zopp].
  destruct (Z.le_gt_cases 0 e) as [Hpos|Hneg].
  - rewrite Z.shiftl_mul_pow2 by done.
    assert (2 ^ 2 = 2 ^ (2 - e) * 2 ^ e) as Hsplit
      by (rewrite <- Z.pow_add_r by lia; f_equal; lia).
    change (2 ^ 2) with 4 in Hsplit. nia.
  - rewrite <- (Z.opp_involutive e), Z.shiftl_opp_r, Z.shiftr_div_pow2 by lia.
    assert (2 ^ (2 - e) = 4 * 2 ^ (- e)) as Hsplit.
    { replace (2 - e) with (2 + - e) by lia. by rewrite Z.pow_add_r by lia. }
    assert (0 < 2 ^ (- e)) by (apply Z.pow_pos_nonneg; lia).
    assert (Z.pos m = 100 * 2 ^ (- e)) as -> by lia.
    by rewrite Z.div_mul by lia.
Qed.

(** X12: the two ends of a download come out exact: with everything
    fetched ([downloaded = total > 0]) the percent is 100, with nothing
    fetched it is 0, for totals of any size; so a complete download always
    hands the callback the 100 that ends the progress loop. *)
Theorem percent_of_ends (total : Z) :
  0 < total →
  percent_of total total = inr 100
  ∧ percent_of 0 total = inr 0
  ∧ hook (DownloadProgress_init true)
      {| status := "downloading"; total_bytes := Some total;
         total_bytes_estimate := None; downloaded_bytes := Some total |}
    = inr ({| has_callback := true; last_percent := 100 |},
           [TrueDiv total total; Callback 100 "downloading"]).
Proof.
  intros Ht.
  assert (percent_of total total = inr 100) as H100.
  { unfold percent_of. destruct (truediv_self total Ht) as (x & -> & Hx).
    cbn [mbind result_bind]. by apply int_of_float_exact, mul_100_exact. }
  split_and!; [done | |].
  - unfold percent_of, truediv.
    rewrite (proj2 (Z.eqb_neq total 0)) by lia. reflexivity.
  - unfold hook, event_total.
    cbn [status total_bytes total_bytes_estimate downloaded_bytes].
    change (default 0 (Some total)) with total.
    rewrite decide_True by done.
    destruct (decide (total = 0)); [lia|].
    rewrite decide_True by done.
    rewrite H100. reflexivity.
Qed.

Lemma delivered_nil_app out1 out2 :
  delivered out1 = [] → delivered out2 = [] → delivered (out1 ++ out2) = [].
Proof. intros H1 H2. by rewrite delivered_app, H1, H2. Qed.

Lemma hook_silent self d self' out :
  has_callback self = false → hook self d = inr (self', out) →
  self' = self ∧ delivered out = [].
Proof.
  intros Hcb. unfold hook.
  destruct (decide (status d = "downloading")).
  - destruct (decide (0 < event_total d)).
    + destruct (percent_of _ _) as [ex|p]; cbn [mbind result_bind]; [done|].
      rewrite Hcb, andb_false_r. by intros [= <- <-].
    + by intros [= <- <-].
  - rewrite Hcb. destruct (decide (status d = "finished")); by intros [= <- <-].
Qed.


Lemma list_last_cons {A} (x d : A) (l : list A) :
  List.last (x :: l) d = List.last l x.
Proof.
  revert x d. induction l as [|y l IH]; intros x d; [reflexivity|].
  change (List.last (x :: y :: l) d) with (List.last (y :: l) d).
  by rewrite !IH.
Qed.

Lemma hook_step self d self' out :
  hook self d = inr (self', out) →
  (downloading_percents out = [] ∧ last_percent self' = last_percent self)
  ∨ (∃ p, downloading_percents out = [p] ∧ p ≠ last_percent self
          ∧ last_percent self' = p).
Proof.
  unfold hook.
  destruct (decide (status d = "downloading")).
  - destruct (decide (0 < event_total d)).
    + destruct (percent_of _ _) as [ex|p]; cbn [mbind result_bind]; [done|].
      destruct (bool_decide (p ≠ last_percent self)) eqn:Hp; cbn [andb].
      * apply bool_decide_eq_true in Hp.
        destruct (has_callback self); intros [= <- <-].
        -- right. by exists p.
        -- by left.
      * intros [= <- <-]. by left.
    + intros [= <- <-]. by left.
  - destruct (decide (status d = "finished")); [destruct (has_callback self)|];
      intros [= <- <-]; by left.
Qed.

(** X14: the hook forwards a percent only when it changes: over any run
    that does not raise, the percents of the "downloading" callbacks start
    with one that differs from the [last_percent] the run began with, no
    two in a row are equal, and the object ends up holding the last of
    them. *)
Theorem run_hook_deduplicates (self : DownloadProgress)
    (ds : list progress_event) (self' : DownloadProgress) (out : list effect) :
  run_hook self ds = inr (self', out) →
  Sorted (fun a b : Z => a ≠ b) (last_percent self :: downloading_percents out)
  ∧ last_percent self' = List.last (downloading_percents out) (last_percent self).
Proof.
  revert self out. induction ds as [|d ds IH]; intros self out; cbn [run_hook].
  - intros [= <- <-]. split; [by repeat constructor | done].
  - destruct (hook self d) as [ex|[self1 out1]] eqn:Hhook;
      cbn [mbind result_bind]; [done|].
    destruct (run_hook self1 ds) as [ex|[self2 out2]] eqn:Hrun;
      cbn [mbind result_bind]; [done|].
    intros [= <- <-].
    destruct (IH self1 out2 Hrun) as [Hsorted Hlast].
    assert (downloading_percents (out1 ++ out2)
            = downloading_percents out1 ++ downloading_percents out2) as ->
      by apply omap_app.
    destruct (hook_step self d self1 out1 Hhook)
      as [[-> Heq]|(p & -> & Hne & Heq)]; cbn [app].
    + rewrite <- Heq. by split.
    + rewrite Heq in Hsorted, Hlast. split.
      * constructor; [done | by constructor].
      * by rewrite Hlast, list_last_cons.
Qed.

End HookMore.

(** ** The video job, further *)

Section VideoMore.

Import Downloader.

Variable engine_download :
  string -> string -> files -> Py.result (string * Path) * files.
Variable ffmpeg : option string -> Z * option string.

Local Abbreviation job := (download_video engine_download ffmpeg).

(** The canonical path after a download that left [fs1]. *)
Local Abbreviation canonical fs1 filename :=
  (if bool_decide (is_Some (fs1 !! path_str filename)) then filename
   else with_suffix ".mp4" filename).

(** X15: a re-encode that succeeds replaces the artifact in place: when
    the codec tag is not H.264, the canonical file exists and [ffmpeg]
    exits with 0 having written its output, [download_video] returns the
    canonical path, which now holds the re-encoded bytes; the "_h264" file
    is gone, and every other file is as the download left it. *)
Theorem reencode_success_replaces_artifact
    (url quality : string) (w : world)
    (vcodec : string) (filename : Path) (fs1 : files)
    (original encoded : string) :
  engine_download url (format_for quality) (fs w) = (inr (vcodec, filename), fs1) →
  vcodec ≠ EmptyString → String.prefix "avc" vcodec = false →
  let final_path := canonical fs1 filename in
  let h264_path := with_stem (stem final_path +:+ "_h264") final_path in
  fs1 !! path_str final_path = Some original →
  ffmpeg (Some original) = (0%Z, Some encoded) →
  (job url quality w).1 = inr final_path
  ∧ fs (job url quality w).2 !! path_str final_path = Some encoded
  ∧ fs (job url quality w).2 !! path_str h264_path = None
  ∧ ∀ p : string,
      p ≠ path_str final_path → p ≠ path_str h264_path →
      fs (job url quality w).2 !! p = fs1 !! p.
Proof.
  intros Hengine Hcodec Havc final_path h264_path Hexists Hffmpeg.
  pose proof (h264_path_fresh final_path) as Hfresh. fold h264_path in Hfresh.
  unfold download_video, extract_info, canonical_path, path_exists,
    normalize_codec, run_ffmpeg, unlink, rename, update_fs, raise,
    mbind, Job_bind, mret, Job_ret.
  rewrite Hengine. cbn [fs seen]. fold final_path.
  rewrite bool_decide_true by done. rewrite Havc. cbn [negb andb].
  cbn [fs seen]. rewrite Hexists, Hffmpeg. cbn [snd fs seen].
  rewrite decide_True by done. fold h264_path. cbn [fs seen].
  rewrite lookup_insert_ne by done. rewrite Hexists. cbn [fs seen].
  rewrite lookup_delete_ne, lookup_insert_eq by done. cbn [fst snd fs seen].
  split_and!.
  - done.
  - apply lookup_insert_eq.
  - rewrite lookup_insert_ne by done. apply lookup_delete_eq.
  - intros p Hp Hq.
    rewrite lookup_insert_ne, lookup_delete_ne, lookup_delete_ne,
      lookup_insert_ne by done. done.
Qed.

(** X17: the original is removed before the re-encoded file is moved
    over it: if [ffmpeg] exits with 0 without having written its output,
    and no "_h264" file was lying there, [download_video] raises
    [FileNotFoundError] from the rename, and by then the canonical file is
    gone. *)
Theorem reencode_without_output_loses_artifact
    (url quality : string) (w : world)
    (vcodec : string) (filename : Path) (fs1 : files) (original : string) :
  engine_download url (format_for quality) (fs w) = (inr (vcodec, filename), fs1) →
  vcodec ≠ EmptyString → String.prefix "avc" vcodec = false →
  let final_path := canonical fs1 filename in
  let h264_path := with_stem (stem final_path +:+ "_h264") final_path in
  fs1 !! path_str final_path = Some original →
  fs1 !! path_str h264_path = None →
  ffmpeg (Some original) = (0%Z, None) →
  (job url quality w).1 = inl Py.FileNotFoundError
  ∧ fs (job url quality w).2 !! path_str final_path = None.
Proof.
  intros Hengine Hcodec Havc final_path h264_path Hexists Hnone Hffmpeg.
  pose proof (h264_path_fresh final_path) as Hfresh. fold h264_path in Hfresh.
  unfold download_video, extract_info, canonical_path, path_exists,
    normalize_codec, run_ffmpeg, unlink, rename, update_fs, raise,
    mbind, Job_bind, mret, Job_ret.
  rewrite Hengine. cbn [fs seen]. fold final_path.
  rewrite bool_decide_true by done. rewrite Havc. cbn [negb andb].
  cbn [fs seen]. rewrite Hexists, Hffmpeg.
  rewrite decide_True by done. cbn [fs seen]. rewrite Hexists. cbn [fs seen].
  fold h264_path. rewrite lookup_delete_ne, Hnone by done. cbn [fst snd fs].
  split; [done | apply lookup_delete_eq].
Qed.

End VideoMore.

(** ** Durations *)

Section DurationFacts.

Import Downloader.
Local Open Scope Z_scope.

Local Abbreviation digit := (fun c : ascii => (48 <=? N_of_ascii c)%N && (N_of_ascii c <=? 57)%N).

Lemma string_of_uint_digits (d : Decimal.uint) :
  forallb digit (list_ascii_of_string (NilEmpty.string_of_uint d)) = true.
Proof. induction d; cbn; done. Qed.

Lemma str_of_int_digits (n : Z) :
  0 <= n → forallb digit (list_ascii_of_string (Py.str_of_int n)) = true.
Proof.
  intros Hn. unfold Py.str_of_int. destruct n as [|p|p]; [done| |lia].
  cbn [Z.to_int NilZero.string_of_int NilZero.string_of_uint].
  pose proof (DecimalPos.Unsigned.to_uint_nonnil p) as Hnil.
  pose proof (string_of_uint_digits (Pos.to_uint p)) as Hd.
  by destruct (Pos.to_uint p).
Qed.

Lemma str_of_int_inj (a b : Z) : Py.str_of_int a = Py.str_of_int b → a = b.
Proof.
  unfold Py.str_of_int. intros Heq.
  assert (∀ z, NilZero.int_of_string (NilZero.string_of_int (Z.to_int z))
               = Some (Z.to_int z)) as Hparse.
  { intros z. apply NilZero.isi; destruct z as [|p|p]; cbn; try done;
      intros [= H]; by apply (DecimalPos.Unsigned.to_uint_nonnil p). }
  pose proof (Hparse a) as Ha. rewrite Heq, Hparse in Ha.
  injection Ha as Ha.
  by rewrite <- (DecimalZ.of_to a), <- (DecimalZ.of_to b), Ha.
Qed.

Lemma digits_no_colon (s : string) :
  forallb digit (list_ascii_of_string s) = true →
  Forall (fun c => c ≠ ":"%char) (list_ascii_of_string s).
Proof.
  intros Hd. apply Forall_forall. intros c Hc ->.
  rewrite forallb_forall in Hd.
  apply list_elem_of_In in Hc. specialize (Hd _ Hc). discriminate.
Qed.

(** The fields a two-digit format is used on. *)
Local Abbreviation sixty := (map Z.of_nat (seq 0 60)).

Lemma below_sixty (n : Z) : 0 <= n < 60 → In n sixty.
Proof.
  intros Hn. apply in_map_iff. exists (Z.to_nat n).
  split; [lia|]. apply in_seq. lia.
Qed.

Lemma fmt_02d_two_digits (n : Z) :
  0 <= n < 60 →
  String.length (fmt_02d n) = 2%nat
  ∧ forallb digit (list_ascii_of_string (fmt_02d n)) = true.
Proof.
  intros Hn.
  assert (forallb (fun n => Nat.eqb (String.length (fmt_02d n)) 2
                     && forallb digit (list_ascii_of_string (fmt_02d n)))
            sixty = true) as Hall by (vm_compute; reflexivity).
  rewrite forallb_forall in Hall.
  specialize (Hall n (below_sixty n Hn)).
  apply andb_true_iff in Hall as [Hlen Hd].
  by apply Nat.eqb_eq in Hlen.
Qed.

Lemma fmt_02d_inj (a b : Z) :
  0 <= a < 60 → 0 <= b < 60 → fmt_02d a = fmt_02d b → a = b.
Proof.
  intros Ha Hb Heq.
  assert (forallb (fun a => forallb (fun b =>
                     implb (String.eqb (fmt_02d a) (fmt_02d b)) (a =? b))
                     sixty) sixty = true) as Hall by (vm_compute; reflexivity).
  rewrite forallb_forall in Hall.
  specialize (Hall a (below_sixty a Ha)).
  rewrite forallb_forall in Hall.
  specialize (Hall b (below_sixty b Hb)).
  rewrite Heq, String.eqb_refl in Hall. cbn in Hall. by apply Z.eqb_eq.
Qed.

Lemma colon_split (s1 s2 t1 t2 : string) :
  forallb digit (list_ascii_of_string s1) = true →
  forallb digit (list_ascii_of_string s2) = true →
  s1 +:+ ":" +:+ t1 = s2 +:+ ":" +:+ t2 → s1 = s2 ∧ t1 = t2.
Proof.
  intros H1 H2 Heq.
  apply (f_equal (Bot.split_once ":")) in Heq.
  change (":" +:+ t1) with (String ":" t1) in Heq.
  change (":" +:+ t2) with (String ":" t2) in Heq.
  rewrite !split_once_first in Heq by by apply digits_no_colon.
  by injection Heq.
Qed.

(** X18: the text of a duration tells the duration: two different
    numbers of seconds, none negative, are never shown the same way,
    whether as M:SS or as H:MM:SS. *)
Theorem format_duration_inj (a b : Z) :
  0 <= a → 0 <= b → format_duration a = format_duration b → a = b.
Proof.
  intros Ha Hb. unfold format_duration.
  assert (∀ n, 0 <= n → 0 <= n mod 60 < 60 ∧ 0 <= n mod 3600 / 60 < 60
               ∧ 0 <= n / 60 ∧ 0 <= n / 3600) as Hfields
    by (intros n Hn; Z.div_mod_to_equations; lia).
  destruct (Hfields a Ha) as (Has & Ham & Haq & Hah).
  destruct (Hfields b Hb) as (Hbs & Hbm & Hbq & Hbh).
  destruct (fmt_02d_two_digits _ Has) as [Hlas Hdas].
  destruct (fmt_02d_two_digits _ Hbs) as [Hlbs Hdbs].
  destruct (fmt_02d_two_digits _ Ham) as [Hlam Hdam].
  destruct (fmt_02d_two_digits _ Hbm) as [Hlbm Hdbm].
  destruct (decide (a < 3600)), (decide (b < 3600)); intros Heq.
  - apply colon_split in Heq as [Hq Hs]; [|by apply str_of_int_digits..].
    apply str_of_int_inj in Hq. apply fmt_02d_inj in Hs; [|done..].
    Z.div_mod_to_equations. lia.
  - apply colon_split in Heq as [_ Hs]; [|by apply str_of_int_digits..].
    apply (f_equal String.length) in Hs.
    rewrite !string_length_app, Hlas, Hlbm, Hlbs in Hs. cbn in Hs. lia.
  - apply colon_split in Heq as [_ Hs]; [|by apply str_of_int_digits..].
    apply (f_equal String.length) in Hs.
    rewrite !string_length_app, Hlbs, Hlam, Hlas in Hs. cbn in Hs. lia.
  - apply colon_split in Heq as [Hh Hrest]; [|by apply str_of_int_digits..].
    apply colon_split in Hrest as [Hm Hs]; [|done..].
    apply str_of_int_inj in Hh.
    apply fmt_02d_inj in Hm; [|done..]. apply fmt_02d_inj in Hs; [|done..].
    Z.div_mod_to_equations. lia.
Qed.

End DurationFacts.

(** ** The further properties on the sample data *)

Section MoreInstances.

Import Downloader Fileserver.


Lemma nested_name_not_refused_witness :
  let os := flat_os Sample.download_dir [Sample.video] in
  (handle_download Sample.download_dir os "music/album/song.mp3").2 !! 2
  = Some (Exists (Sample.download_dir ++ ["music"; "album"; "song.mp3"])).
Proof.
  intros os.
  exact (proj2 (nested_name_not_refused Sample.download_dir os
                  "music/album/song.mp3" eq_refl eq_refl eq_refl)).
Defined.

Lemma store_url_below_capacity_witness :
  let put := Bot._store_url Sample.digest in
  length (put [] "https://youtu.be/abc").1 < 100
  ∧ PyDict.keys (put (put [] "https://youtu.be/abc").1 "https://youtu.be/abc").1
    = PyDict.keys (put [] "https://youtu.be/abc").1.
Proof.
  intros put.
  assert (length (put [] "https://youtu.be/abc").1 < 100) as Hroom
    by (vm_compute; lia).
  split; [exact Hroom|].
  apply (proj1 (proj2 (store_url_below_capacity Sample.digest
                         (put [] "https://youtu.be/abc").1
                         "https://youtu.be/abc" Hroom))).
  by apply (bool_decide_unpack _); vm_compute.
Defined.

Lemma store_url_keeps_newest_half_witness :
  let store := Bot.stores_after Sample.digest (Sample.urls 100) in
  let put := Bot._store_url Sample.digest in
  100 <= length store
  ∧ Bot._get_url (put store "https://youtu.be/abc").1 "Z"
    = Bot._get_url store "Z".
Proof.
  intros store put.
  assert (100 <= length store) as Hfull by (vm_compute; lia).
  split; [exact Hfull|].
  apply (proj1 (store_url_keeps_newest_half Sample.digest store
                  "https://youtu.be/abc" Hfull) "Z").
  - by apply (bool_decide_unpack _); vm_compute.
  - by vm_compute.
Defined.

Lemma button_round_trip_witness :
  let put := Bot._store_url Sample.digest in
  "720p" ∈ ["best"; "720p"; "480p"; "audio"]
  ∧ Bot.handle_callback (put [] (Bot.with_scheme "youtu.be/abc123")).1
      (Bot.callback_data "720p" (put [] (Bot.with_scheme "youtu.be/abc123")).2)
    = inr (Bot.DownloadVideo "https://youtu.be/abc123" "720p").
Proof.
  intros put.
  assert ("720p" ∈ ["best"; "720p"; "480p"; "audio"]) as Hq
    by (apply list_elem_of_further, list_elem_of_here).
  split; [exact Hq|].
  exact (proj2 (button_round_trip Sample.digest [] "youtu.be/abc123" "720p" Hq)).
Defined.

Lemma evicted_button_expired_witness :
  let store := Bot.stores_after Sample.digest (Sample.urls 100) in
  let put := Bot._store_url Sample.digest in
  100 <= length store
  ∧ Bot.handle_callback (put store "https://youtu.be/abc").1
      (Bot.callback_data "best" "!")
    = inr Bot.LinkExpired.
Proof.
  intros store put.
  assert (100 <= length store) as Hfull by (vm_compute; lia).
  split; [exact Hfull|].
  apply (evicted_button_expired Sample.digest (Sample.urls 100)
           "https://youtu.be/abc" "best" "!" Hfull).
  - apply list_elem_of_here.
  - by apply (bool_decide_unpack _); vm_compute.
  - by vm_compute.
Defined.

Lemma malformed_button_raises_witness :
  Bot.handle_callback [] "garbage" = inl Py.ValueError.
Proof.
  apply (malformed_button_raises [] "garbage").
  repeat constructor; discriminate.
Defined.

Lemma update_progress_shows_latest_witness :
  Forall (fun x => x < 100)%Z [0; 12; 12; -3]%Z
  ∧ last (Bot.update_progress [0; 12; 12; -3]%Z)
    = Some (Bot.Notify (-3) "Downloading... -3%").
Proof.
  assert (Forall (fun x => x < 100)%Z [0; 12; 12; -3]%Z) as Hbelow
    by (repeat constructor; lia).
  split; [exact Hbelow|].
  destruct (proj1 (proj2 (proj2 (update_progress_shows_latest
                                   [0; 12; 12; -3]%Z)) Hbelow)
              (-3)%Z eq_refl) as [[Hnil _]|Hlast].
  - vm_compute in Hnil. discriminate.
  - exact Hlast.
Defined.

Lemma percent_of_ends_witness :
  (0 < 7340032)%Z ∧ percent_of 7340032 7340032 = inr 100%Z.
Proof.
  assert (0 < 7340032)%Z as Hpos by lia.
  split; [exact Hpos|].
  exact (proj1 (percent_of_ends 7340032 Hpos)).
Defined.


Lemma run_hook_deduplicates_witness :
  ∃ self' out,
    run_hook (DownloadProgress_init true)
      [Sample.halfway; Sample.halfway; Sample.finished]
    = inr (self', out)
    ∧ last_percent self' = List.last (downloading_percents out) (-1)%Z.
Proof.
  destruct (run_hook (DownloadProgress_init true)
              [Sample.halfway; Sample.halfway; Sample.finished])
    as [ex|[self' out]] eqn:Hrun; [by vm_compute in Hrun|].
  exists self', out. split; [done|].
  exact (proj2 (run_hook_deduplicates (DownloadProgress_init true)
                  [Sample.halfway; Sample.halfway; Sample.finished]
                  self' out Hrun)).
Defined.

Lemma reencode_success_replaces_artifact_witness :
  let job := download_video Sample.engine Sample.working_ffmpeg
               "https://youtu.be/abc123" "720p" Sample.empty_world in
  (String.prefix "avc" "vp9" = false
   ∧ Sample.downloaded !! path_str Sample.clip = Some "VP9 DATA")
  ∧ job.1 = inr Sample.clip
  ∧ fs job.2 !! path_str Sample.clip = Some "H264 DATA".
Proof.
  intros job.
  split; [by split|].
  destruct (reencode_success_replaces_artifact
              Sample.engine Sample.working_ffmpeg
              "https://youtu.be/abc123" "720p" Sample.empty_world
              "vp9" Sample.clip Sample.downloaded "VP9 DATA" "H264 DATA"
              eq_refl ltac:(discriminate) eq_refl eq_refl eq_refl)
    as (Hr & Hfs & _).
  split; [exact Hr | exact Hfs].
Defined.

Lemma reencode_without_output_loses_artifact_witness :
  let job := download_video Sample.engine Sample.silent_ffmpeg
               "https://youtu.be/abc123" "720p" Sample.empty_world in
  (String.prefix "avc" "vp9" = false
   ∧ Sample.downloaded !! path_str Sample.clip = Some "VP9 DATA")
  ∧ job.1 = inl Py.FileNotFoundError
  ∧ fs job.2 !! path_str Sample.clip = None.
Proof.
  intros job.
  split; [by split|].
  exact (reencode_without_output_loses_artifact
           Sample.engine Sample.silent_ffmpeg
           "https://youtu.be/abc123" "720p" Sample.empty_world
           "vp9" Sample.clip Sample.downloaded "VP9 DATA"
           eq_refl ltac:(discriminate) eq_refl eq_refl eq_refl eq_refl).
Defined.

Lemma format_duration_inj_witness :
  (0 <= 3661)%Z
  ∧ format_duration 3661 = format_duration (61 * 60 + 1)
  ∧ 3661%Z = (61 * 60 + 1)%Z.
Proof.
  assert (0 <= 3661)%Z as Hpos by lia.
  assert (format_duration 3661 = format_duration (61 * 60 + 1)) as Heq
    by reflexivity.
  split_and!; [exact Hpos | exact Heq |].
  exact (format_duration_inj 3661 (61 * 60 + 1) Hpos ltac:(lia) Heq).
Defined.

End MoreInstances.
